(** * Movie catalogue API (routes/movies.py, schemas/movies.py): shallow embedding

    The FastAPI handlers of [src/src/routes/movies.py] are modelled as
    functions over an explicit relational store.  HTTP failures are the
    values of [HttpError]; a request that a schema rejects never reaches its
    handler.  Dates are Python date ordinals ([date.toordinal()]), Python
    floats that are only stored and compared are rationals [Q]. *)

From Stdlib Require Import ZArith Lia List String Ascii QArith Bool.
From Stdlib Require Import Sorting.Mergesort Sorting.Sorted Sorting.Permutation.
From Stdlib Require Import Structures.Orders.
Import ListNotations.

Open Scope Z_scope.

(* ------------------------------------------------------------------ *)
(** ** Python [str(int)] and zero padding *)

Definition digit_char (d : Z) : ascii := ascii_of_nat (48 + Z.to_nat d).

Fixpoint digits_fuel (fuel : nat) (n : Z) (acc : string) : string :=
  match fuel with
  | O => acc
  | S f =>
      let acc' := String (digit_char (n mod 10)) acc in
      if n <? 10 then acc' else digits_fuel f (n / 10) acc'
  end.

(** [str(n)] for a Python int. *)
Definition py_str_int (n : Z) : string :=
  if n <? 0
  then String "-" (digits_fuel (S (Z.to_nat (Z.log2 (- n)))) (- n) EmptyString)
  else digits_fuel (S (Z.to_nat (Z.log2 n))) n EmptyString.

Fixpoint zeros (k : nat) : string :=
  match k with O => EmptyString | S k' => String "0" (zeros k') end.

(** ["%0wd" % n] for [n >= 0]. *)
Definition pad_zero (w : nat) (n : Z) : string :=
  let s := py_str_int n in append (zeros (w - String.length s)) s.

(* ------------------------------------------------------------------ *)
(** ** [datetime.date] as proleptic Gregorian ordinals *)

Definition MAXORDINAL : Z := 3652059.  (* date(9999, 12, 31).toordinal() *)
Definition DI400Y : Z := 146097.
Definition DI100Y : Z := 36524.
Definition DI4Y : Z := 1461.

Definition is_leap (y : Z) : bool :=
  (y mod 4 =? 0) && (negb (y mod 100 =? 0) || (y mod 400 =? 0)).

(** [_DAYS_BEFORE_MONTH] and [_DAYS_IN_MONTH] (index 0 unused). *)
Definition DAYS_BEFORE_MONTH (m : Z) : Z :=
  nth (Z.to_nat m) [-1; 0; 31; 59; 90; 120; 151; 181; 212; 243; 273; 304; 334] 0.
Definition DAYS_IN_MONTH (m : Z) : Z :=
  nth (Z.to_nat m) [-1; 31; 28; 31; 30; 31; 30; 31; 31; 30; 31; 30; 31] 0.

Definition days_before_year (y : Z) : Z :=
  let y' := y - 1 in y' * 365 + y' / 4 - y' / 100 + y' / 400.

Definition days_before_month (y m : Z) : Z :=
  DAYS_BEFORE_MONTH m + (if (2 <? m) && is_leap y then 1 else 0).

Definition days_in_month (y m : Z) : Z :=
  if (m =? 2) && is_leap y then 29 else DAYS_IN_MONTH m.

(** [_ymd2ord] *)
Definition ymd2ord (y m d : Z) : Z := days_before_year y + days_before_month y m + d.

(** [_ord2ymd] *)
Definition ord2ymd (n0 : Z) : Z * Z * Z :=
  let n := n0 - 1 in
  let n400 := n / DI400Y in let n := n mod DI400Y in
  let year := n400 * 400 + 1 in
  let n100 := n / DI100Y in let n := n mod DI100Y in
  let n4 := n / DI4Y in let n := n mod DI4Y in
  let n1 := n / 365 in let n := n mod 365 in
  let year := year + n100 * 100 + n4 * 4 + n1 in
  if (n1 =? 4) || (n100 =? 4) then (year - 1, 12, 31)
  else
    let leapyear := (n1 =? 3) && (negb (n4 =? 24) || (n100 =? 3)) in
    let month := Z.shiftr (n + 50) 5 in
    let preceding := DAYS_BEFORE_MONTH month
                     + (if (2 <? month) && leapyear then 1 else 0) in
    let '(month, preceding) :=
      if n <? preceding
      then (month - 1,
            preceding - (DAYS_IN_MONTH (month - 1)
                         + (if (month - 1 =? 2) && leapyear then 1 else 0)))
      else (month, preceding) in
    (year, month, n - preceding + 1).

(** [str(d)] = [d.isoformat()] = ["%04d-%02d-%02d"]. *)
Definition date_str (d : Z) : string :=
  let '(y, m, dd) := ord2ymd d in
  append (pad_zero 4 y) (append "-" (append (pad_zero 2 m) (append "-" (pad_zero 2 dd)))).

(** [d + timedelta(days=k)]: [OverflowError] outside [1 .. MAXORDINAL]. *)
Definition date_add_days (d k : Z) : option Z :=
  let o := d + k in if (0 <? o) && (o <=? MAXORDINAL) then Some o else None.

(* ------------------------------------------------------------------ *)
(** ** [math.ceil(a / b)] on Python ints

    For ints [a, b] Python's [a / b] is the double nearest to the exact
    quotient (ties to even); [math.ceil] then rounds that double up. *)

(** Round-half-even of the rational [num / den], [den > 0]. *)
Definition rne_div (num den : Z) : Z :=
  let q := num / den in let r := num mod den in
  if 2 * r <? den then q
  else if den <? 2 * r then q + 1
  else if Z.even q then q else q + 1.

(** Exponent [e] of the exact quotient: [2^e <= a / b < 2^(e+1)]. *)
Definition quot_exp (a b : Z) : Z :=
  let e0 := Z.log2 a - Z.log2 b in
  let le := if 0 <=? e0 then b * 2 ^ e0 <=? a else b <=? a * 2 ^ (- e0) in
  if le then e0 else e0 - 1.

(** [math.ceil(a / b)] for [a >= 0], [b >= 1]: the quotient is rounded to a
    53-bit significand, [m * 2^(-s)], then rounded up to an int. *)
Definition py_ceil_truediv (a b : Z) : Z :=
  if a =? 0 then 0
  else
    let s := 52 - quot_exp a b in
    let m := if 0 <=? s then rne_div (a * 2 ^ s) b else rne_div a (b * 2 ^ (- s)) in
    if s <=? 0 then m * 2 ^ (- s) else (m + 2 ^ s - 1) / 2 ^ s.


(* ------------------------------------------------------------------ *)
(** ** The relational store (database/models.py)

    [database/models.py] is not part of the sources; the tables, their
    generated ids and their uniqueness constraints follow the spec. *)

(** Modelled from the spec: [MovieStatusEnum] of database/models.py; the
    spec names the values Released and Post-Production. *)
Inductive MovieStatusEnum := Released | PostProduction.

Definition status_value (st : MovieStatusEnum) : string :=
  match st with Released => "Released" | PostProduction => "Post-Production" end.

(** Modelled from the spec: a row of the [movies] table. *)
Record MovieModel := mkMovie {
  m_id : Z; m_name : string; m_date : Z; m_score : Q;
  m_overview : option string; m_status : MovieStatusEnum;
  m_budget : Q; m_revenue : Q; m_country_id : Z }.

(** Modelled from the spec: a row of [countries] (natural key [code]). *)
Record CountryModel := mkCountry { c_id : Z; c_code : string; c_name : option string }.

(** Modelled from the spec: a row of [genres], [actors] or [languages]
    (natural key [name]). *)
Record NamedModel := mkNamed { r_id : Z; r_name : string }.
Definition GenreModel := NamedModel.
Definition ActorModel := NamedModel.
Definition LanguageModel := NamedModel.

(** Modelled from the spec: the committed content of the database; the
    association tables hold [(movie_id, other_id)] rows in insertion order. *)
Record Db := mkDb {
  movies : list MovieModel; countries : list CountryModel;
  genres : list NamedModel; actors : list NamedModel; languages : list NamedModel;
  movies_genres : list (Z * Z); actors_movies : list (Z * Z);
  movies_languages : list (Z * Z) }.

Definition set_movies s v := mkDb v (countries s) (genres s) (actors s) (languages s)
  (movies_genres s) (actors_movies s) (movies_languages s).
Definition set_countries s v := mkDb (movies s) v (genres s) (actors s) (languages s)
  (movies_genres s) (actors_movies s) (movies_languages s).
Definition set_genres s v := mkDb (movies s) (countries s) v (actors s) (languages s)
  (movies_genres s) (actors_movies s) (movies_languages s).
Definition set_actors s v := mkDb (movies s) (countries s) (genres s) v (languages s)
  (movies_genres s) (actors_movies s) (movies_languages s).
Definition set_languages s v := mkDb (movies s) (countries s) (genres s) (actors s) v
  (movies_genres s) (actors_movies s) (movies_languages s).
Definition set_links s g a l := mkDb (movies s) (countries s) (genres s) (actors s)
  (languages s) g a l.

(** SQLite [INTEGER PRIMARY KEY]: a new row gets one more than the largest
    id in use. *)
Definition next_id {A} (id : A -> Z) (t : list A) : Z :=
  1 + fold_right (fun x acc => Z.max (id x) acc) 0 t.

(** Errors reported by the store. *)
Inductive StoreError := IntegrityError (constraint : string).

(** Failures of a request: [HTTPException]; a request rejected by the
    pydantic schema (FastAPI's 422, with the offending fields); a response
    that does not fit its [response_model]; and the exceptions the handlers
    do not catch, which end as HTTP 500: a store error, [OverflowError]
    from date arithmetic, [TypeError] from comparing [None]. *)
Inductive HttpError :=
  | HTTPException (status_code : Z) (detail : string)
  | RequestValidationError (locs : list string)
  | ResponseValidationError
  | StoreException (e : StoreError)
  | OverflowError
  | TypeError.

Inductive result (A : Type) := Ok (a : A) | Err (e : HttpError).
Arguments Ok {A} a.
Arguments Err {A} e.

(* ------------------------------------------------------------------ *)
(** ** GET /movies/ ([get_movies], [_page_link]) *)

(** [ORDER BY movies.id DESC] *)
Module MovieIdDesc <: TotalLeBool.
Definition t := MovieModel.
Definition leb (x y : MovieModel) : bool := m_id y <=? m_id x.
Theorem leb_total : forall a1 a2, leb a1 a2 = true \/ leb a2 a1 = true.
Proof. intros a1 a2; unfold leb; rewrite !Z.leb_le; lia. Qed.
End MovieIdDesc.
Module MovieSort := Sort MovieIdDesc.

Definition order_by_id_desc (t : list MovieModel) : list MovieModel := MovieSort.sort t.

(** [.offset(o).limit(l)] *)
Definition offset_limit {A} (o l : Z) (xs : list A) : list A :=
  firstn (Z.to_nat l) (skipn (Z.to_nat o) xs).

Record MovieShortResponse := mkShort {
  sh_id : Z; sh_name : string; sh_date : Z; sh_score : Q; sh_overview : option string }.

Definition short_of (m : MovieModel) : MovieShortResponse :=
  mkShort (m_id m) (m_name m) (m_date m) (m_score m) (m_overview m).

Record MovieListResponseSchema := mkList {
  l_movies : list MovieShortResponse; prev_page : option string;
  next_page : option string; total_pages : Z; total_items : Z }.

Definition _page_link (page per_page : Z) : string :=
  append "/theater/movies/?page="
    (append (py_str_int page) (append "&per_page=" (py_str_int per_page))).

Definition no_movies : HttpError := HTTPException 404 "No movies found.".

(** [get_movies]: [s_count] is the store seen by the [count] query and
    [s_fetch] the one seen by the page query (two separate statements). *)
Definition get_movies (page per_page : Z) (s_count s_fetch : Db)
  : result MovieListResponseSchema :=
  let total_items := Z.of_nat (List.length (movies s_count)) in
  if total_items =? 0 then Err no_movies else
  let total_pages := py_ceil_truediv total_items per_page in
  if total_pages <? page then Err no_movies else
  let ms := offset_limit ((page - 1) * per_page) per_page
              (order_by_id_desc (movies s_fetch)) in
  match ms with
  | [] => Err no_movies
  | _ =>
      let prev_page := if 1 <? page then Some (_page_link (page - 1) per_page) else None in
      let next_page := if page <? total_pages
                       then Some (_page_link (page + 1) per_page) else None in
      Ok (mkList (map short_of ms) prev_page next_page total_pages total_items)
  end.

(** [Query(1, ge=1)] and [Query(10, ge=1, le=20)]. *)
Definition list_query_ok (page per_page : Z) : bool :=
  (1 <=? page) && (1 <=? per_page) && (per_page <=? 20).

(** main.py: [app.include_router(movie_router, prefix=mount)]; the router
    itself has prefix ["/movies"].  Dispatch of [GET <path>?page&per_page]. *)
Definition serve_list (mount path : string) (page per_page : Z) (s : Db)
  : option (result MovieListResponseSchema) :=
  if String.eqb path (append mount "/movies/") then
    Some (if list_query_ok page per_page then get_movies page per_page s s
          else Err (RequestValidationError []))
  else None.

Definition app_mount : string := "/api/v1/theater".

(* ------------------------------------------------------------------ *)
(** ** Transactions: a state and error monad over the store *)

Definition M (A : Type) : Type := Db -> result (A * Db).

Definition ret {A} (a : A) : M A := fun s => Ok (a, s).
Definition bind {A B} (c : M A) (k : A -> M B) : M B :=
  fun s => match c s with Ok (a, s') => k a s' | Err e => Err e end.
Definition raise {A} (e : HttpError) : M A := fun _ => Err e.

Notation "x <- c ;; k" := (bind c (fun x => k))
  (at level 61, c at next level, right associativity).

(** Modelled from the spec: the store enforces a unique natural key and a
    unique id on each reference table. *)
Definition insert_named (r : NamedModel) (t : list NamedModel) : result (list NamedModel) :=
  if existsb (fun x => String.eqb (r_name x) (r_name r) || (r_id x =? r_id r)) t
  then Err (StoreException (IntegrityError "UNIQUE constraint failed: name"))
  else Ok (t ++ [r]).

Definition insert_country (c : CountryModel) (t : list CountryModel) : result (list CountryModel) :=
  if existsb (fun x => String.eqb (c_code x) (c_code c) || (c_id x =? c_id c)) t
  then Err (StoreException (IntegrityError "UNIQUE constraint failed: countries.code"))
  else Ok (t ++ [c]).

(** Modelled from the spec: the unique constraint on [(Movie.name, Movie.date)]. *)
Definition insert_movie (m : MovieModel) (t : list MovieModel) : result (list MovieModel) :=
  if existsb (fun x => (String.eqb (m_name x) (m_name m) && (m_date x =? m_date m))
                       || (m_id x =? m_id m)) t
  then Err (StoreException (IntegrityError "UNIQUE constraint failed: movies.name, movies.date"))
  else Ok (t ++ [m]).

(** One reference table, read and written through the session. *)
Record NamedTable := {
  tbl_get : Db -> list NamedModel;
  tbl_set : Db -> list NamedModel -> Db }.

Definition genre_table := {| tbl_get := genres; tbl_set := set_genres |}.
Definition actor_table := {| tbl_get := actors; tbl_set := set_actors |}.
Definition language_table := {| tbl_get := languages; tbl_set := set_languages |}.

(** [x = await db.scalar(select(T).where(T.name == key))];
    [if not x: x = T(name=key); db.add(x); await db.flush()] *)
Definition resolve_named (T : NamedTable) (key : string) : M NamedModel :=
  fun s =>
    match find (fun r => String.eqb (r_name r) key) (tbl_get T s) with
    | Some r => Ok (r, s)
    | None =>
        let r := mkNamed (next_id r_id (tbl_get T s)) key in
        match insert_named r (tbl_get T s) with
        | Ok t => Ok (r, tbl_set T s t)
        | Err e => Err e
        end
    end.

(** [for name in names: ... movie.<rel>.append(x)]: the appended rows. *)
Fixpoint resolve_all (T : NamedTable) (names : list string) : M (list NamedModel) :=
  match names with
  | [] => ret []
  | n :: ns => r <- resolve_named T n ;; rs <- resolve_all T ns ;; ret (r :: rs)
  end.

(** The country lookup of [create_movie] (natural key [code]). *)
Definition resolve_country (code : string) : M CountryModel :=
  fun s =>
    match find (fun c => String.eqb (c_code c) code) (countries s) with
    | Some c => Ok (c, s)
    | None =>
        let c := mkCountry (next_id c_id (countries s)) code None in
        match insert_country c (countries s) with
        | Ok t => Ok (c, set_countries s t)
        | Err e => Err e
        end
    end.

(** [db.add(movie); await db.flush()]: the row gets its id. *)
Definition add_movie (mk : Z -> MovieModel) : M MovieModel :=
  fun s =>
    let m := mk (next_id m_id (movies s)) in
    match insert_movie m (movies s) with
    | Ok t => Ok (m, set_movies s t)
    | Err e => Err e
    end.

(** Writing the collections of the new movie at flush/commit. *)
Definition link_rows (mid : Z) (rs : list NamedModel) : list (Z * Z) :=
  map (fun r => (mid, r_id r)) rs.

Definition commit_links (mid : Z) (gs as_ ls : list NamedModel) : M unit :=
  fun s => Ok (tt, set_links s (movies_genres s ++ link_rows mid gs)
                             (actors_movies s ++ link_rows mid as_)
                             (movies_languages s ++ link_rows mid ls)).

(* ------------------------------------------------------------------ *)
(** ** GET /movies/{movie_id}/ ([_get_movie_or_404]) *)

(** The response model of a movie.  routes/movies.py imports and names
    [MovieDetailSchema], while schemas/movies.py defines it as
    [MovieDetailResponseSchema]; the record keeps the route's name.  Of the
    response validation, only the presence of the movie's country row is
    modelled ([ResponseValidationError] when it is missing); the
    [MovieBase] limits that [MovieDetailResponseSchema] would also check on
    the response (name length, score range, ...) are not. *)
Record MovieDetailSchema := mkDetail {
  d_id : Z; d_name : string; d_date : Z; d_score : Q; d_overview : option string;
  d_status : MovieStatusEnum; d_budget : Q; d_revenue : Q;
  d_country : CountryModel; d_genres : list NamedModel;
  d_actors : list NamedModel; d_languages : list NamedModel }.

(** Modelled from the spec: [selectinload] of a many-to-many relation yields
    the related rows of the movie's association rows, in the order the
    associations were written. *)
Definition load_related (mid : Z) (links : list (Z * Z)) (t : list NamedModel)
  : list NamedModel :=
  flat_map (fun '(m, o) =>
              if m =? mid
              then match find (fun r => r_id r =? o) t with Some r => [r] | None => [] end
              else []) links.

Definition not_found_movie : HttpError :=
  HTTPException 404 "Movie with the given ID was not found.".

Definition _get_movie_or_404 (movie_id : Z) (s : Db) : result MovieDetailSchema :=
  match find (fun m => m_id m =? movie_id) (movies s) with
  | None => Err not_found_movie
  | Some m =>
      match find (fun c => c_id c =? m_country_id m) (countries s) with
      | None => Err ResponseValidationError
      | Some c =>
          Ok (mkDetail (m_id m) (m_name m) (m_date m) (m_score m) (m_overview m)
                (m_status m) (m_budget m) (m_revenue m) c
                (load_related (m_id m) (movies_genres s) (genres s))
                (load_related (m_id m) (actors_movies s) (actors s))
                (load_related (m_id m) (movies_languages s) (languages s)))
      end
  end.

Definition get_movie_by_id (movie_id : Z) (s : Db) : result MovieDetailSchema :=
  _get_movie_or_404 movie_id s.

(* ------------------------------------------------------------------ *)
(** ** POST /movies/ ([MovieCreateSchema], [create_movie]) *)

Record MovieCreateSchema := mkCreate {
  p_name : string; p_date : Z; p_score : Q; p_overview : option string;
  p_status : MovieStatusEnum; p_budget : Q; p_revenue : Q;
  p_country : string; p_genres : list string; p_actors : list string;
  p_languages : list string }.

(** The field constraints of [MovieBase] and [MovieCreateSchema], with
    [check_future_date] evaluated on the day [today] of validation. *)
Definition validate_create (today : Z) (p : MovieCreateSchema) : result MovieCreateSchema :=
  match date_add_days today 365 with
  | None => Err OverflowError
  | Some limit =>
      let bad :=
        (if Nat.leb (String.length (p_name p)) 255 then [] else ["name"%string])
        ++ (if p_date p <=? limit then [] else ["date"%string])
        ++ (if Qle_bool 0 (p_score p) && Qle_bool (p_score p) 100 then [] else ["score"%string])
        ++ (if Qle_bool 0 (p_budget p) then [] else ["budget"%string])
        ++ (if Qle_bool 0 (p_revenue p) then [] else ["revenue"%string])
        ++ (if Nat.leb (String.length (p_country p)) 3 then [] else ["country"%string]) in
      match bad with [] => Ok p | _ => Err (RequestValidationError bad) end
  end.

Definition duplicate_movie (name : string) (d : Z) : HttpError :=
  HTTPException 409
    (append "A movie with the name '"
      (append name (append "' and release date '"
        (append (date_str d) "' already exists.")))).

Definition invalid_input : HttpError := HTTPException 400 "Invalid input data.".

(** Everything after the duplicate check, up to the re-read. *)
Definition create_body (p : MovieCreateSchema) : M MovieDetailSchema :=
  country <- resolve_country (p_country p) ;;
  movie <- add_movie (fun id => mkMovie id (p_name p) (p_date p) (p_score p)
                                  (p_overview p) (p_status p) (p_budget p)
                                  (p_revenue p) (c_id country)) ;;
  gs <- resolve_all genre_table (p_genres p) ;;
  as_ <- resolve_all actor_table (p_actors p) ;;
  ls <- resolve_all language_table (p_languages p) ;;
  _ <- commit_links (m_id movie) gs as_ ls ;;
  fun s => match _get_movie_or_404 (m_id movie) s with
           | Ok d => Ok (d, s)
           | Err e => Err e
           end.

(** [create_movie] on a validated payload, run on day [today].  [conc] is
    the effect of transactions of other requests that commit between the
    duplicate check and the insert; on failure the request's own writes are
    rolled back. *)
Definition create_movie (conc : Db -> Db) (today : Z) (p : MovieCreateSchema) (s : Db)
  : result MovieDetailSchema * Db :=
  match date_add_days today 365 with
  | None => (Err OverflowError, s)
  | Some limit =>
      if limit <? p_date p then (Err invalid_input, s) else
      if existsb (fun m => String.eqb (m_name m) (p_name p) && (m_date m =? p_date p))
                 (movies s)
      then (Err (duplicate_movie (p_name p) (p_date p)), s)
      else
        let s1 := conc s in
        match create_body p s1 with
        | Ok (d, s2) => (Ok d, s2)
        | Err e => (Err e, s1)
        end
  end.

(** The POST request: schema validation on day [today_v], then the handler
    on day [today_h]. *)
Definition post_movie (conc : Db -> Db) (today_v today_h : Z) (p : MovieCreateSchema) (s : Db)
  : result MovieDetailSchema * Db :=
  match validate_create today_v p with
  | Ok p' => create_movie conc today_h p' s
  | Err e => (Err e, s)
  end.

(* ------------------------------------------------------------------ *)
(** ** PATCH /movies/{movie_id}/ ([MovieUpdateSchema], [update_movie]) *)

(** A JSON request body: an object whose members are kept in order. *)
Inductive json :=
  | JNull | JBool (b : bool) | JNum (q : Q) | JStr (s : string) | JOther.

Definition body := list (string * json).

(** The member [k] of the object; with repeated keys the last one wins. *)
Definition member (k : string) (o : body) : option json :=
  fold_left (fun acc '(k', v) => if String.eqb k k' then Some v else acc) o None.

Definition digit_of (c : ascii) : option Z :=
  let n := Z.of_nat (nat_of_ascii c) in
  if (48 <=? n) && (n <=? 57) then Some (n - 48) else None.

Fixpoint number_of (cs : list ascii) (acc : Z) : option Z :=
  match cs with
  | [] => Some acc
  | c :: cs' => match digit_of c with
                | Some d => number_of cs' (10 * acc + d)
                | None => None
                end
  end.

(** A date in the form [YYYY-MM-DD]. *)
Definition parse_iso_date (s : string) : option Z :=
  match list_ascii_of_string s with
  | [y1; y2; y3; y4; "-"%char; m1; m2; "-"%char; d1; d2] =>
      match number_of [y1; y2; y3; y4] 0, number_of [m1; m2] 0, number_of [d1; d2] 0 with
      | Some y, Some m, Some d =>
          if (1 <=? y) && (1 <=? m) && (m <=? 12) && (1 <=? d) && (d <=? days_in_month y m)
          then Some (ymd2ord y m d) else None
      | _, _, _ => None
      end
  | _ => None
  end.

Definition parse_status (s : string) : option MovieStatusEnum :=
  if String.eqb s (status_value Released) then Some Released
  else if String.eqb s (status_value PostProduction) then Some PostProduction
  else None.

(** pydantic's validation of one [Optional[T]] field from JSON: [null] is
    [None]; [coerce] checks the other values.  The coercions are a subset
    of pydantic v2's lax mode: only JSON numbers and booleans are taken as
    floats, only [YYYY-MM-DD] strings as dates and only the two named
    status values as statuses, while pydantic also takes numeric strings
    as floats and numbers or midnight datetimes as dates.  A body this
    model rejects may therefore pass the real schema (a missing key fails
    both); the properties of the update handler are stated over
    [update_movie] and any [MovieUpdateSchema] value, not over this
    parser. *)
Definition opt_field {T} (coerce : json -> option T) (v : json) : option (option T) :=
  match v with JNull => Some None | _ => option_map Some (coerce v) end.

Definition as_str (v : json) : option string := match v with JStr s => Some s | _ => None end.
Definition as_float (v : json) : option Q :=
  match v with JNum q => Some q | JBool b => Some (if b then 1%Q else 0%Q) | _ => None end.
Definition as_date (v : json) : option Z :=
  match v with JStr s => parse_iso_date s | _ => None end.
Definition as_status (v : json) : option MovieStatusEnum :=
  match v with JStr s => parse_status s | _ => None end.

Definition is_some {A} (x : option A) : bool := match x with Some _ => true | None => false end.

(** A validated [MovieUpdateSchema] with its [model_fields_set]. *)
Record MovieUpdateSchema := mkUpdate {
  u_name : option string; u_date : option Z; u_score : option Q;
  u_overview : option string; u_status : option MovieStatusEnum;
  u_budget : option Q; u_revenue : option Q;
  u_fields_set : list string }.

Definition update_fields : list string :=
  ["name"; "date"; "score"; "overview"; "status"; "budget"; "revenue"]%string.

(** Field [k] of the body: [Optional[T]] with no default is a required
    field in pydantic v2, so an absent key is an error, as is a value that
    does not validate. *)
Definition field {T} (k : string) (coerce : json -> option T) (o : body)
  : option (option T) :=
  match member k o with None => None | Some v => opt_field coerce v end.

Definition validate_update (o : body) : result MovieUpdateSchema :=
  let fn := field "name" as_str o in
  let fd := field "date" as_date o in
  let fs := field "score" as_float o in
  let fo := field "overview" as_str o in
  let ft := field "status" as_status o in
  let fb := field "budget" as_float o in
  let fr := field "revenue" as_float o in
  match fn, fd, fs, fo, ft, fb, fr with
  | Some n, Some d, Some sc, Some ov, Some st, Some b, Some r =>
      Ok (mkUpdate n d sc ov st b r
            (filter (fun k => match member k o with Some _ => true | None => false end)
                    update_fields))
  | _, _, _, _, _, _, _ =>
      Err (RequestValidationError
             (filter (fun k => match member k o with
                               | None => true
                               | Some v =>
                                   if String.eqb k "name" then negb (is_some (opt_field as_str v))
                                   else if String.eqb k "date" then negb (is_some (opt_field as_date v))
                                   else if String.eqb k "score" then negb (is_some (opt_field as_float v))
                                   else if String.eqb k "overview" then negb (is_some (opt_field as_str v))
                                   else if String.eqb k "status" then negb (is_some (opt_field as_status v))
                                   else negb (is_some (opt_field as_float v))
                               end) update_fields))
  end.

(** One entry of [movie_data.model_dump(exclude_unset=True)]. *)
Inductive FieldValue :=
  | FName (v : option string) | FDate (v : option Z) | FScore (v : option Q)
  | FOverview (v : option string) | FStatus (v : option MovieStatusEnum)
  | FBudget (v : option Q) | FRevenue (v : option Q).

Definition model_dump_exclude_unset (u : MovieUpdateSchema) : list (string * FieldValue) :=
  filter (fun kv => existsb (String.eqb (fst kv)) (u_fields_set u))
    [("name", FName (u_name u)); ("date", FDate (u_date u));
     ("score", FScore (u_score u)); ("overview", FOverview (u_overview u));
     ("status", FStatus (u_status u)); ("budget", FBudget (u_budget u));
     ("revenue", FRevenue (u_revenue u))]%string.

Definition data_get (k : string) (data : list (string * FieldValue)) : option FieldValue :=
  option_map snd (find (fun kv => String.eqb (fst kv) k) data).

(** [if "score" in data and not (0 <= data["score"] <= 100)] and the
    checks of budget, revenue and date, in source order.  Comparing [None]
    with a number or a date raises [TypeError]. *)
Definition check_score data : option HttpError :=
  match data_get "score" data with
  | Some (FScore (Some v)) => if Qle_bool 0 v && Qle_bool v 100 then None else Some invalid_input
  | Some (FScore None) => Some TypeError
  | _ => None
  end.

Definition check_nonneg (k : string) data : option HttpError :=
  match data_get k data with
  | Some (FBudget (Some v)) | Some (FRevenue (Some v)) =>
      if Qle_bool 0 v then None else Some invalid_input
  | Some (FBudget None) | Some (FRevenue None) => Some TypeError
  | _ => None
  end.

Definition check_date (today : Z) data : option HttpError :=
  match data_get "date" data with
  | Some (FDate v) =>
      match date_add_days today 365 with
      | None => Some OverflowError
      | Some limit =>
          match v with
          | None => Some TypeError
          | Some d => if limit <? d then Some invalid_input else None
          end
      end
  | _ => None
  end.

Definition update_checks (today : Z) data : option HttpError :=
  match check_score data with Some e => Some e | None =>
  match check_nonneg "budget" data with Some e => Some e | None =>
  match check_nonneg "revenue" data with Some e => Some e | None =>
  check_date today data end end end.

(** [setattr(movie, field, value)] on the loaded row; a [None] in a column
    other than [overview] is kept as [None] until the commit. *)
Definition setattr (m : option MovieModel) (fv : FieldValue) : option MovieModel :=
  match m with
  | None => None
  | Some (mkMovie i n d sc ov st b r c) =>
      match fv with
      | FName (Some v) => Some (mkMovie i v d sc ov st b r c)
      | FDate (Some v) => Some (mkMovie i n v sc ov st b r c)
      | FScore (Some v) => Some (mkMovie i n d v ov st b r c)
      | FOverview v => Some (mkMovie i n d sc v st b r c)
      | FStatus (Some v) => Some (mkMovie i n d sc ov v b r c)
      | FBudget (Some v) => Some (mkMovie i n d sc ov st v r c)
      | FRevenue (Some v) => Some (mkMovie i n d sc ov st b v c)
      | _ => None
      end
  end.

Definition replace_movie (m : MovieModel) (t : list MovieModel) : list MovieModel :=
  map (fun x => if m_id x =? m_id m then m else x) t.

(** Modelled from the spec: the commit of the updated row; the columns
    other than [overview] are NOT NULL and [(name, date)] is unique. *)
Definition commit_movie (m' : option MovieModel) (id : Z) (s : Db) : result Db :=
  match m' with
  | None => Err (StoreException (IntegrityError "NOT NULL constraint failed"))
  | Some m =>
      if existsb (fun x => negb (m_id x =? id) && String.eqb (m_name x) (m_name m)
                            && (m_date x =? m_date m)) (movies s)
      then Err (StoreException (IntegrityError "UNIQUE constraint failed: movies.name, movies.date"))
      else Ok (set_movies s (replace_movie m (movies s)))
  end.

Definition updated_ack : string := "Movie updated successfully.".

(** [update_movie] on a validated payload. *)
Definition update_movie (today movie_id : Z) (u : MovieUpdateSchema) (s : Db)
  : result string * Db :=
  match find (fun m => m_id m =? movie_id) (movies s) with
  | None => (Err not_found_movie, s)
  | Some movie =>
      let data := model_dump_exclude_unset u in
      match update_checks today data with
      | Some e => (Err e, s)
      | None =>
          let m' := fold_left setattr (map snd data) (Some movie) in
          match commit_movie m' (m_id movie) s with
          | Ok s' => (Ok updated_ack, s')
          | Err e => (Err e, s)
          end
      end
  end.

(** The PATCH request: the body is validated against [MovieUpdateSchema]
    before the handler runs. *)
Definition patch_movie (today movie_id : Z) (o : body) (s : Db) : result string * Db :=
  match validate_update o with
  | Ok u => update_movie today movie_id u s
  | Err e => (Err e, s)
  end.

(* ------------------------------------------------------------------ *)
(** ** DELETE /movies/{movie_id}/ ([delete_movie]) *)

(** Modelled from the spec: deleting a movie row removes its association
    rows and nothing else. *)
Definition drop_links (mid : Z) (links : list (Z * Z)) : list (Z * Z) :=
  filter (fun l => negb (fst l =? mid)) links.

Definition delete_rows (mid : Z) (s : Db) : Db :=
  mkDb (filter (fun m => negb (m_id m =? mid)) (movies s)) (countries s) (genres s)
       (actors s) (languages s) (drop_links mid (movies_genres s))
       (drop_links mid (actors_movies s)) (drop_links mid (movies_languages s)).

(** [movie = await db.get(MovieModel, movie_id)]; 404 if absent, else
    [await db.delete(movie); await db.commit()] and 204 with no body. *)
Definition delete_movie (movie_id : Z) (s : Db) : result unit * Db :=
  match find (fun m => m_id m =? movie_id) (movies s) with
  | None => (Err not_found_movie, s)
  | Some movie => (Ok tt, delete_rows (m_id movie) s)
  end.

(* ------------------------------------------------------------------ *)
(** ** Store invariants used by the properties *)

(** A reference table: unique names (the natural key) and unique ids. *)
Definition tbl_wf (t : list NamedModel) : Prop :=
  NoDup (map r_name t) /\ NoDup (map r_id t).

(** Association rows refer to stored movies. *)
Definition links_ok (ms : list MovieModel) (links : list (Z * Z)) : Prop :=
  forall l, In l links -> In (fst l) (map m_id ms).

(** Modelled from the spec: the constraints of the store (primary keys,
    unique natural keys, foreign keys of the association tables). *)
Definition wf_db (s : Db) : Prop :=
  NoDup (map c_id (countries s)) /\ NoDup (map c_code (countries s)) /\
  tbl_wf (genres s) /\ tbl_wf (actors s) /\ tbl_wf (languages s) /\
  links_ok (movies s) (movies_genres s) /\ links_ok (movies s) (actors_movies s) /\
  links_ok (movies s) (movies_languages s).

(** Get-or-create of every name of [names] over the table [old], giving
    the table [new] and the associated rows [rows]: rows are only appended,
    each for a name of the list that had none; names stay unique; the
    [i]-th row carries the [i]-th name and is the pre-existing row of that
    name when there was one. *)
Definition resolved_names (old new : list NamedModel) (names : list string)
    (rows : list NamedModel) : Prop :=
  (exists added, new = old ++ added /\
     Forall (fun r => In (r_name r) names /\ ~ In (r_name r) (map r_name old)) added) /\
  NoDup (map r_name new) /\
  Forall2 (fun n r => r_name r = n /\ In r new /\
                      (forall r0, In r0 old -> r_name r0 = n -> r = r0)) names rows.

(** Get-or-create of a country by code. *)
Definition resolved_country (old new : list CountryModel) (code : string)
    (c : CountryModel) : Prop :=
  c_code c = code /\
  (forall c0, In c0 old -> c_code c0 = code -> c = c0) /\
  ((In c old /\ new = old) \/
   (~ In code (map c_code old) /\ c_name c = None /\ new = old ++ [c])).

(* ================================================================== *)
(** * Properties *)

(** ** Sanity checks of the embedding *)

Example date_str_leap : date_str (ymd2ord 2024 2 29) = "2024-02-29"%string.
Proof. vm_compute. reflexivity. Qed.

Example date_str_new_year : date_str (ymd2ord 1999 12 31 + 1) = "2000-01-01"%string.
Proof. vm_compute. reflexivity. Qed.

Example parse_date_ex : parse_iso_date "2025-03-01" = Some (ymd2ord 2025 3 1).
Proof. vm_compute. reflexivity. Qed.

Example ceil_25_10 : py_ceil_truediv 25 10 = 3.
Proof. reflexivity. Qed.

Example ceil_20_10 : py_ceil_truediv 20 10 = 2.
Proof. reflexivity. Qed.

(** Above 2^53 the double quotient has lost the fraction. *)
Example ceil_large : py_ceil_truediv (2 ^ 54 + 1) 2 = 2 ^ 53.
Proof. reflexivity. Qed.

Example link_ex : _page_link 2 10 = "/theater/movies/?page=2&per_page=10"%string.
Proof. reflexivity. Qed.

(** ** [math.ceil(a / b)] is the exact ceiling for SQLite-sized counts *)

Lemma div_window (x P c : Z) : 0 < P -> c * P <= x < c * P + P -> x / P = c.
Proof.
  intros HP Hx. symmetry. apply Z.div_unique_pos with (r := x - c * P); lia.
Qed.

Lemma rne_div_bounds (n d : Z) :
  0 < d -> n / d <= rne_div n d <= n / d + 1.
Proof.
  intros Hd. unfold rne_div.
  destruct (2 * (n mod d) <? d); [lia|].
  destruct (d <? 2 * (n mod d)); [lia|].
  destruct (Z.even (n / d)); lia.
Qed.

Lemma rne_div_exact (n d : Z) : 0 < d -> n mod d = 0 -> rne_div n d = n / d.
Proof.
  intros Hd Hm. unfold rne_div. rewrite Hm.
  replace (2 * 0 <? d) with true by (symmetry; apply Z.ltb_lt; lia). reflexivity.
Qed.

Lemma quot_exp_le (a b : Z) : 1 <= b -> quot_exp a b <= Z.log2 a.
Proof.
  intros Hb. unfold quot_exp.
  pose proof (Z.log2_nonneg b).
  destruct (if 0 <=? Z.log2 a - Z.log2 b then _ else _); lia.
Qed.

(** SQLite holds fewer than 2^48 rows in a table (at most 2^32 pages of at
    most 2^16 bytes); below that the double quotient has enough fraction
    bits for [math.ceil] to be the exact ceiling. *)
Lemma py_ceil_truediv_exact (a b : Z) :
  1 <= a < 2 ^ 48 -> 1 <= b <= 20 -> py_ceil_truediv a b = (a + b - 1) / b.
Proof.
  intros Ha Hb. unfold py_ceil_truediv.
  replace (a =? 0) with false by (symmetry; apply Z.eqb_neq; lia).
  assert (Hl : Z.log2 a < 48) by (apply Z.log2_lt_pow2; lia).
  pose proof (quot_exp_le a b ltac:(lia)) as He.
  set (s := 52 - quot_exp a b).
  assert (Hs : 5 <= s) by (unfold s; lia).
  replace (0 <=? s) with true by (symmetry; apply Z.leb_le; lia).
  replace (s <=? 0) with false by (symmetry; apply Z.leb_gt; lia).
  set (P := 2 ^ s).
  assert (HP : 32 <= P).
  { unfold P. replace 32 with (2 ^ 5) by reflexivity. apply Z.pow_le_mono_r; lia. }
  pose proof (Z.div_mod a b ltac:(lia)) as Hab.
  pose proof (Z.mod_pos_bound a b ltac:(lia)) as Hr.
  set (c := a / b) in *. set (r := a mod b) in *.
  pose proof (Z.div_mod (a * P) b ltac:(lia)) as HaP.
  pose proof (Z.mod_pos_bound (a * P) b ltac:(lia)) as Ht.
  set (q := a * P / b) in *. set (t := a * P mod b) in *.
  assert (Hk : b * (q - c * P) = r * P - t) by nia.
  destruct (Z.eq_dec r 0) as [Hr0 | Hr0].
  - assert (Hq : q = c * P) by nia.
    assert (Ht0 : t = 0) by nia.
    rewrite rne_div_exact by (lia || exact Ht0). fold q. rewrite Hq.
    rewrite (div_window (c * P + P - 1) P c) by lia.
    symmetry. apply div_window; lia.
  - assert (Hlo : 1 <= q - c * P) by nia.
    assert (Hhi : q - c * P <= P - 1) by nia.
    pose proof (rne_div_bounds (a * P) b ltac:(lia)) as Hm. fold q in Hm.
    rewrite (div_window (rne_div (a * P) b + P - 1) P (c + 1)) by nia.
    symmetry. apply div_window; lia.
Qed.

(** ** Listing *)

Lemma order_by_id_desc_sorted (t : list MovieModel) :
  Sorted (fun x y => m_id y <= m_id x) (order_by_id_desc t).
Proof.
  pose proof (MovieSort.Sorted_sort t) as H. unfold order_by_id_desc.
  induction H as [|x l Hs IH Hd]; constructor; [exact IH|].
  destruct Hd; constructor. unfold MovieIdDesc.leb in H. apply Z.leb_le. exact H.
Qed.

Lemma order_by_id_desc_perm (t : list MovieModel) : Permutation t (order_by_id_desc t).
Proof. apply MovieSort.Permuted_sort. Qed.

Lemma offset_limit_length {A} (o l : Z) (xs : list A) :
  0 <= l -> Z.of_nat (List.length (offset_limit o l xs)) <= l.
Proof.
  intros Hl. unfold offset_limit. rewrite length_firstn. lia.
Qed.

(** C4: with the count and the page query each seeing some state of the
    store, the listing fails with NotFound ("No movies found.") exactly when
    the count is 0, the page lies beyond [ceil(total_items / per_page)] or
    the fetched slice is empty; otherwise it returns the summaries of the
    slice of the id-descending order that starts at [(page-1)*per_page] and
    has at most [per_page] movies, with [total_pages] the exact ceiling. *)
Theorem get_movies_spec (page per_page : Z) (s_count s_fetch : Db) :
  1 <= page -> 1 <= per_page <= 20 ->
  Z.of_nat (List.length (movies s_count)) < 2 ^ 48 ->
  let n := Z.of_nat (List.length (movies s_count)) in
  let tp := (n + per_page - 1) / per_page in
  let ordered := order_by_id_desc (movies s_fetch) in
  let slice := offset_limit ((page - 1) * per_page) per_page ordered in
  (get_movies page per_page s_count s_fetch = Err no_movies <->
     n = 0 \/ tp < page \/ slice = []) /\
  (~ (n = 0 \/ tp < page \/ slice = []) ->
     exists prev next,
       get_movies page per_page s_count s_fetch
       = Ok (mkList (map short_of slice) prev next tp n)) /\
  Sorted (fun x y => m_id y <= m_id x) ordered /\
  Permutation (movies s_fetch) ordered /\
  Z.of_nat (List.length slice) <= per_page.
Proof.
  intros Hp Hpp Hcap n tp ordered slice.
  split; [|split; [|split; [apply order_by_id_desc_sorted|
                            split; [apply order_by_id_desc_perm|
                                    apply offset_limit_length; lia]]]].
  - unfold get_movies. fold n.
    destruct (Z.eqb_spec n 0) as [Hn|Hn].
    + split; [intros _; left; exact Hn | reflexivity].
    + rewrite py_ceil_truediv_exact by lia. fold tp.
      destruct (Z.ltb_spec tp page) as [Ht|Ht].
      * split; [intros _; right; left; exact Ht | reflexivity].
      * fold ordered slice. destruct slice as [|x xs] eqn:Hs.
        -- split; [intros _; right; right; reflexivity | reflexivity].
        -- split; [discriminate|]. intros [H|[H|H]]; [lia|lia|discriminate].
  - intros Hnot. unfold get_movies. fold n.
    destruct (Z.eqb_spec n 0) as [Hn|Hn]; [tauto|].
    rewrite py_ceil_truediv_exact by lia. fold tp.
    destruct (Z.ltb_spec tp page) as [Ht|Ht]; [tauto|].
    fold ordered slice. destruct slice as [|x xs] eqn:Hs; [tauto|].
    eexists; eexists; reflexivity.
Qed.

(** A store with the movies [1 .. n], all of country 1. *)
Definition demo_movie (i : Z) : MovieModel :=
  mkMovie i (append "Movie " (py_str_int i)) (ymd2ord 2020 1 1) 50 None Released 0 0 1.

Definition demo_store (n : nat) : Db :=
  mkDb (map (fun k => demo_movie (Z.of_nat k)) (seq 1 n)) [mkCountry 1 "US" None]
       [] [] [] [] [] [].

Example list_25_page_1 :
  match get_movies 1 10 (demo_store 25) (demo_store 25) with
  | Ok r => (List.length (l_movies r), prev_page r, is_some (next_page r), total_pages r)
  | Err _ => (0%nat, None, false, 0)
  end = (10%nat, None, true, 3).
Proof. vm_compute. reflexivity. Qed.

Example list_25_page_3 :
  match get_movies 3 10 (demo_store 25) (demo_store 25) with
  | Ok r => (map sh_id (l_movies r), is_some (prev_page r), next_page r)
  | Err _ => ([], false, None)
  end = ([5; 4; 3; 2; 1], true, None).
Proof. vm_compute. reflexivity. Qed.

Example list_25_page_4 : get_movies 4 10 (demo_store 25) (demo_store 25) = Err no_movies.
Proof. vm_compute. reflexivity. Qed.

Lemma get_movies_spec_witness :
  let n := Z.of_nat (List.length (movies (demo_store 25))) in
  let tp := (n + 10 - 1) / 10 in
  let ordered := order_by_id_desc (movies (demo_store 25)) in
  let slice := offset_limit ((3 - 1) * 10) 10 ordered in
  (get_movies 3 10 (demo_store 25) (demo_store 25) = Err no_movies <->
     n = 0 \/ tp < 3 \/ slice = []) /\
  (~ (n = 0 \/ tp < 3 \/ slice = []) ->
     exists prev next,
       get_movies 3 10 (demo_store 25) (demo_store 25)
       = Ok (mkList (map short_of slice) prev next tp n)) /\
  Sorted (fun x y => m_id y <= m_id x) ordered /\
  Permutation (movies (demo_store 25)) ordered /\
  Z.of_nat (List.length slice) <= 10.
Proof.
  apply (get_movies_spec 3 10 (demo_store 25) (demo_store 25)).
  - lia.
  - lia.
  - vm_compute. reflexivity.
Defined.

(** C5: whatever prefix the router is mounted under, a successful listing
    has [prev_page] exactly when [page > 1], pointing to [page - 1], and
    [next_page] exactly when [page < total_pages], pointing to [page + 1];
    both links are one fixed prefix followed by
    [/movies/?page=<n>&per_page=<m>]. *)
Theorem page_links_spec :
  exists prefix : string,
  forall (mount path : string) (page per_page : Z) (s : Db) (r : MovieListResponseSchema),
    serve_list mount path page per_page s = Some (Ok r) ->
    let link n := append prefix (append "/movies/?page="
                    (append (py_str_int n) (append "&per_page=" (py_str_int per_page)))) in
    prev_page r = (if 1 <? page then Some (link (page - 1)) else None) /\
    next_page r = (if page <? total_pages r then Some (link (page + 1)) else None).
Proof.
  exists "/theater"%string.
  intros mount path page per_page s r Hs link.
  unfold serve_list in Hs.
  destruct (String.eqb path (append mount "/movies/")); [|discriminate].
  destruct (list_query_ok page per_page); [|discriminate].
  injection Hs as Hs. unfold get_movies in Hs.
  destruct (Z.of_nat (List.length (movies s)) =? 0); [discriminate|].
  destruct (py_ceil_truediv _ per_page <? page); [discriminate|].
  destruct (offset_limit _ _ _); [discriminate|].
  injection Hs as <-. simpl. split; reflexivity.
Qed.

Lemma page_links_spec_witness :
  exists (prefix : string) (r : MovieListResponseSchema),
    serve_list app_mount "/api/v1/theater/movies/" 2 10 (demo_store 25) = Some (Ok r) /\
    prev_page r = Some (append prefix "/movies/?page=1&per_page=10") /\
    next_page r = Some (append prefix "/movies/?page=3&per_page=10").
Proof.
  destruct page_links_spec as [prefix H].
  pose (r := match serve_list app_mount "/api/v1/theater/movies/" 2 10 (demo_store 25) with
             | Some (Ok r) => r
             | _ => mkList [] None None 0 0
             end).
  assert (Hr : serve_list app_mount "/api/v1/theater/movies/" 2 10 (demo_store 25)
               = Some (Ok r)) by (vm_compute; reflexivity).
  exists prefix, r. split; [exact Hr|].
  destruct (H app_mount "/api/v1/theater/movies/"%string 2 10 (demo_store 25) r Hr) as [Hp Hn].
  rewrite Hp, Hn.
  replace (total_pages r) with 3 by (vm_compute; reflexivity).
  split; reflexivity.
Defined.

(** ** Errors of the creation body *)

Definition errs (P : HttpError -> Prop) {A} (c : M A) : Prop :=
  forall s e, c s = Err e -> P e.

Definition create_error (e : HttpError) : Prop :=
  (exists se, e = StoreException se) \/ e = not_found_movie \/ e = ResponseValidationError.

Lemma errs_ret P {A} (a : A) : errs P (ret a).
Proof. intros s e H. discriminate. Qed.

Lemma errs_bind P {A B} (c : M A) (k : A -> M B) :
  errs P c -> (forall a, errs P (k a)) -> errs P (bind c k).
Proof.
  intros Hc Hk s e H. unfold bind in H.
  destruct (c s) as [[a s']|e'] eqn:E.
  - exact (Hk a s' e H).
  - injection H as <-. exact (Hc s e' E).
Qed.

Lemma errs_resolve_named T key : errs create_error (resolve_named T key).
Proof.
  intros s e H. unfold resolve_named, insert_named in H.
  destruct (find _ _); [discriminate|].
  destruct (existsb _ _); [|discriminate].
  injection H as <-. left. eexists. reflexivity.
Qed.

Lemma errs_resolve_all T names : errs create_error (resolve_all T names).
Proof.
  induction names as [|n ns IH]; simpl.
  - apply errs_ret.
  - apply errs_bind; [apply errs_resolve_named|intros r].
    apply errs_bind; [exact IH|intros rs]. apply errs_ret.
Qed.

Lemma create_body_errors p : errs create_error (create_body p).
Proof.
  unfold create_body.
  apply errs_bind.
  { intros s e H. unfold resolve_country, insert_country in H.
    destruct (find _ _); [discriminate|]. destruct (existsb _ _); [|discriminate].
    injection H as <-. left. eexists. reflexivity. }
  intros c. apply errs_bind.
  { intros s e H. unfold add_movie, insert_movie in H.
    destruct (existsb _ _); [|discriminate].
    injection H as <-. left. eexists. reflexivity. }
  intros m. apply errs_bind; [apply errs_resolve_all|intros gs].
  apply errs_bind; [apply errs_resolve_all|intros as_].
  apply errs_bind; [apply errs_resolve_all|intros ls].
  apply errs_bind; [intros s e H; discriminate|intros u].
  intros s e H. unfold _get_movie_or_404 in H.
  destruct (find _ (movies s)) as [mm|].
  - destruct (find _ (countries s)); [discriminate|].
    injection H as <-. right. right. reflexivity.
  - injection H as <-. right. left. reflexivity.
Qed.

(** ** Creation: duplicate check and date guard *)

Lemma validate_create_ok today p p' :
  validate_create today p = Ok p' ->
  p' = p /\ exists limit, date_add_days today 365 = Some limit /\ p_date p <= limit.
Proof.
  unfold validate_create. destruct (date_add_days today 365) as [limit|]; [|discriminate].
  destruct (p_date p <=? limit) eqn:Hd.
  - intros H. destruct (_ ++ _) eqn:Hb in H; [|discriminate].
    injection H as <-. split; [reflexivity|]. exists limit. split; [reflexivity|].
    apply Z.leb_le. exact Hd.
  - intros H. destruct (_ ++ _) eqn:Hb in H.
    + apply app_eq_nil in Hb as [_ Hb]. simpl in Hb. discriminate.
    + discriminate.
Qed.

Lemma date_add_days_365 (d : Z) :
  0 < d + 365 -> d + 365 <= MAXORDINAL -> date_add_days d 365 = Some (d + 365).
Proof.
  intros H1 H2. unfold date_add_days.
  replace (0 <? d + 365) with true by (symmetry; apply Z.ltb_lt; lia).
  replace (d + 365 <=? MAXORDINAL) with true by (symmetry; apply Z.leb_le; lia).
  reflexivity.
Qed.

Lemma date_add_days_inv (d k o : Z) : date_add_days d k = Some o -> o = d + k /\ 0 < o.
Proof.
  unfold date_add_days. destruct (0 <? d + k) eqn:H1; [|discriminate].
  destruct (d + k <=? MAXORDINAL); [|discriminate].
  intros H. injection H as <-. apply Z.ltb_lt in H1. lia.
Qed.

(** C2: a validated creation request whose [(name, date)] is already held
    by a stored movie ends in Conflict with the message
    ["A movie with the name '<name>' and release date '<date>' already exists."]
    ([<date>] is [str(date)]) and leaves the store as it was.  The handler
    runs on day [today_h], no earlier than the day of validation and before
    the last year that [date] can represent. *)
Theorem create_duplicate_conflict (conc : Db -> Db) (today_v today_h : Z)
    (p : MovieCreateSchema) (s : Db) (held : MovieModel) :
  validate_create today_v p = Ok p ->
  today_v <= today_h -> today_h + 365 <= MAXORDINAL ->
  In held (movies s) -> m_name held = p_name p -> m_date held = p_date p ->
  post_movie conc today_v today_h p s
  = (Err (HTTPException 409
            (append "A movie with the name '"
              (append (p_name p) (append "' and release date '"
                (append (date_str (p_date p)) "' already exists."))))), s).
Proof.
  intros Hv Hle Hmax Hin Hn Hd.
  destruct (validate_create_ok _ _ _ Hv) as [_ [limit [Hl Hpd]]].
  apply date_add_days_inv in Hl as [-> Hpos].
  unfold post_movie. rewrite Hv. unfold create_movie.
  rewrite date_add_days_365 by lia.
  replace (today_h + 365 <? p_date p) with false by (symmetry; apply Z.ltb_ge; lia).
  replace (existsb _ (movies s)) with true.
  - reflexivity.
  - symmetry. apply existsb_exists. exists held. split; [exact Hin|].
    rewrite Hn, Hd, String.eqb_refl, Z.eqb_refl. reflexivity.
Qed.

Definition demo_today : Z := ymd2ord 2025 6 1.

Definition demo_payload (name : string) : MovieCreateSchema :=
  mkCreate name (ymd2ord 2020 1 1) 50 None Released 0 0 "US"
    ["Drama"; "Comedy"]%string ["Tom"]%string ["English"]%string.

Ltac zcomp := first [apply Z.leb_le | apply Z.ltb_lt]; vm_compute; reflexivity.

Lemma create_duplicate_conflict_witness :
  post_movie (fun s => s) demo_today demo_today (demo_payload "Movie 3") (demo_store 25)
  = (Err (HTTPException 409
            "A movie with the name 'Movie 3' and release date '2020-01-01' already exists."),
     demo_store 25).
Proof.
  apply (create_duplicate_conflict (fun s => s) demo_today demo_today
           (demo_payload "Movie 3") (demo_store 25) (demo_movie 3)).
  - vm_compute. reflexivity.
  - lia.
  - zcomp.
  - vm_compute. do 2 right. left. reflexivity.
  - reflexivity.
  - reflexivity.
Defined.

(** C9: a payload that passed [MovieCreateSchema] on day [today_v] has a
    date no later than [today_h + 365] for any later handler day [today_h],
    so the [400 "Invalid input data."] branch of [create_movie] is never
    taken: no run of the handler ends in that error. *)
Theorem create_date_guard_unreachable (conc : Db -> Db) (today_v today_h : Z)
    (p : MovieCreateSchema) (s : Db) :
  validate_create today_v p = Ok p ->
  today_v <= today_h -> today_h + 365 <= MAXORDINAL ->
  p_date p <= today_h + 365 /\
  (forall limit, date_add_days today_h 365 = Some limit -> (limit <? p_date p) = false) /\
  fst (create_movie conc today_h p s) <> Err invalid_input.
Proof.
  intros Hv Hle Hmax.
  destruct (validate_create_ok _ _ _ Hv) as [_ [limit [Hl Hpd]]].
  apply date_add_days_inv in Hl as [-> Hpos].
  assert (Hg : forall limit', date_add_days today_h 365 = Some limit' ->
                              (limit' <? p_date p) = false).
  { intros limit' Hl'. apply date_add_days_inv in Hl' as [-> _]. apply Z.ltb_ge. lia. }
  split; [lia|split; [exact Hg|]].
  unfold create_movie. rewrite date_add_days_365 by lia.
  rewrite (Hg (today_h + 365)) by (apply date_add_days_365; lia).
  destruct (existsb _ (movies s)); [discriminate|].
  destruct (create_body p (conc s)) as [[d s2]|e] eqn:E; [discriminate|].
  simpl. intros Heq. injection Heq as Heq. subst e.
  destruct (create_body_errors p (conc s) invalid_input E) as [[se H]|[H|H]]; discriminate.
Qed.

Lemma create_date_guard_unreachable_witness :
  let p := demo_payload "Heat" in
  p_date p <= demo_today + 365 /\
  (forall limit, date_add_days demo_today 365 = Some limit -> (limit <? p_date p) = false) /\
  fst (create_movie (fun s => s) demo_today p (demo_store 2)) <> Err invalid_input.
Proof.
  apply (create_date_guard_unreachable (fun s => s) demo_today demo_today
           (demo_payload "Heat") (demo_store 2)).
  - vm_compute. reflexivity.
  - lia.
  - zcomp.
Defined.

(** ** Creation racing with another writer *)

Definition heat_row : MovieModel := mkMovie 1 "Heat" (ymd2ord 2020 1 1) 70 None Released 0 0 1.

(** Another request commits a movie with the same name and date between
    the duplicate check and the insert. *)
Definition racing_insert (s : Db) : Db := set_movies s (movies s ++ [heat_row]).

(** C3 (counterexample): the store reports the violation of the unique
    [(name, date)] constraint at the insert, and [create_movie] lets it
    through as a store error, not as the Conflict of the duplicate check. *)
Lemma create_race_not_conflict :
  create_body (demo_payload "Heat") (racing_insert (demo_store 0))
    = Err (StoreException (IntegrityError "UNIQUE constraint failed: movies.name, movies.date")) /\
  fst (post_movie racing_insert demo_today demo_today (demo_payload "Heat") (demo_store 0))
    = Err (StoreException (IntegrityError "UNIQUE constraint failed: movies.name, movies.date")) /\
  fst (post_movie racing_insert demo_today demo_today (demo_payload "Heat") (demo_store 0))
    <> Err (duplicate_movie "Heat" (ymd2ord 2020 1 1)).
Proof.
  split; [vm_compute; reflexivity|]. split; [vm_compute; reflexivity|].
  vm_compute. discriminate.
Qed.

(** C3 (amended): [create_movie] answers Conflict only when its duplicate
    check found a stored movie with the payload's name and date; when that
    check passed and the store then raises an error during the insert or
    commit, such as a uniqueness violation on [(name, date)], the error is
    not caught: it is the result of the request (an unclassified failure)
    and the request's writes are rolled back. *)
Theorem create_store_error_propagates (conc : Db -> Db) (today : Z)
    (p : MovieCreateSchema) (s : Db) :
  (forall msg, fst (create_movie conc today p s) = Err (HTTPException 409 msg) ->
     msg = match duplicate_movie (p_name p) (p_date p) with
           | HTTPException _ m => m | _ => EmptyString end /\
     exists held, In held (movies s) /\ m_name held = p_name p /\ m_date held = p_date p) /\
  (forall limit se,
     date_add_days today 365 = Some limit -> p_date p <= limit ->
     existsb (fun m => String.eqb (m_name m) (p_name p) && (m_date m =? p_date p))
             (movies s) = false ->
     create_body p (conc s) = Err (StoreException se) ->
     create_movie conc today p s = (Err (StoreException se), conc s)).
Proof.
  split.
  - intros msg H. unfold create_movie in H.
    destruct (date_add_days today 365) as [limit|]; [|discriminate].
    destruct (limit <? p_date p); [discriminate|].
    destruct (existsb _ (movies s)) eqn:Hx.
    + simpl in H. injection H as <-. split; [reflexivity|].
      apply existsb_exists in Hx as [held [Hin Hm]].
      apply andb_true_iff in Hm as [Hn Hd].
      exists held. split; [exact Hin|]. split.
      * apply String.eqb_eq. exact Hn.
      * apply Z.eqb_eq. exact Hd.
    + destruct (create_body p (conc s)) as [[d s2]|e] eqn:E; [discriminate|].
      simpl in H. injection H as H. subst e.
      destruct (create_body_errors p (conc s) _ E) as [[se H]|[H|H]]; discriminate.
  - intros limit se Hl Hd Hx Hb. unfold create_movie. rewrite Hl.
    replace (limit <? p_date p) with false by (symmetry; apply Z.ltb_ge; lia).
    rewrite Hx, Hb. reflexivity.
Qed.

Lemma create_store_error_propagates_witness :
  create_movie racing_insert demo_today (demo_payload "Heat") (demo_store 0)
  = (Err (StoreException (IntegrityError "UNIQUE constraint failed: movies.name, movies.date")),
     racing_insert (demo_store 0)).
Proof.
  apply (proj2 (create_store_error_propagates racing_insert demo_today
                  (demo_payload "Heat") (demo_store 0)) (demo_today + 365)).
  - apply date_add_days_365; zcomp || (vm_compute; reflexivity).
  - apply Z.leb_le. vm_compute. reflexivity.
  - vm_compute. reflexivity.
  - vm_compute. reflexivity.
Defined.

(** ** Partial update *)

(** C6 (code_bug): every field of [MovieUpdateSchema] is declared
    [Optional[T]] with no default, which pydantic v2 makes a required field:
    a body that leaves out any field, however many it gives, is rejected as
    a whole by the schema (422) before [update_movie] runs, so
    [model_dump(exclude_unset=True)] never sees a partial payload. *)
Theorem patch_missing_field_rejected (today movie_id : Z) (o : body) (s : Db) (k : string) :
  In k update_fields -> member k o = None ->
  exists locs, In k locs /\ patch_movie today movie_id o s = (Err (RequestValidationError locs), s).
Proof.
  intros Hk Hm. unfold patch_movie, validate_update.
  assert (Hf : forall T (c : json -> option T), field k c o = None).
  { intros T c. unfold field. rewrite Hm. reflexivity. }
  assert (Hin : In k (filter (fun k0 => match member k0 o with
                                 | None => true
                                 | Some v =>
                                     if String.eqb k0 "name" then negb (is_some (opt_field as_str v))
                                     else if String.eqb k0 "date" then negb (is_some (opt_field as_date v))
                                     else if String.eqb k0 "score" then negb (is_some (opt_field as_float v))
                                     else if String.eqb k0 "overview" then negb (is_some (opt_field as_str v))
                                     else if String.eqb k0 "status" then negb (is_some (opt_field as_status v))
                                     else negb (is_some (opt_field as_float v))
                                 end) update_fields)).
  { apply filter_In. split; [exact Hk|]. rewrite Hm. reflexivity. }
  simpl in Hk.
  destruct Hk as [<-|[<-|[<-|[<-|[<-|[<-|[<-|[]]]]]]]];
    rewrite Hf;
    repeat match goal with
           | |- context [match field ?a ?b ?c with Some _ => _ | None => _ end] =>
               destruct (field a b c)
           end;
    eexists; (split; [exact Hin|reflexivity]).
Qed.

Lemma patch_missing_field_rejected_witness :
  exists locs, In "date"%string locs /\
    patch_movie demo_today 3 [("name"%string, JStr "Heat 2")] (demo_store 25)
    = (Err (RequestValidationError locs), demo_store 25).
Proof.
  apply (patch_missing_field_rejected demo_today 3 [("name"%string, JStr "Heat 2")]
           (demo_store 25) "date").
  - simpl. right. left. reflexivity.
  - reflexivity.
Defined.

(** The failing inputs of C6 evaluated: a body giving only [name], and an
    empty body, are both refused with 422 listing the absent fields; the
    empty body does not reach a 400 ["Invalid input data."]. *)
Lemma patch_partial_and_empty_evaluated :
  patch_movie demo_today 3 [("name"%string, JStr "Heat 2")] (demo_store 25)
  = (Err (RequestValidationError
            ["date"; "score"; "overview"; "status"; "budget"; "revenue"]%string),
     demo_store 25) /\
  patch_movie demo_today 3 [] (demo_store 25)
  = (Err (RequestValidationError update_fields), demo_store 25).
Proof. split; vm_compute; reflexivity. Qed.

Lemma in_map_inj {A B} (f : A -> B) (l : list A) (x y : A) :
  NoDup (map f l) -> In x l -> In y l -> f x = f y -> x = y.
Proof.
  induction l as [|a l IH]; simpl; [tauto|].
  intros Hnd Hx Hy Hf. inversion Hnd as [|b l' Hnin Hnd']; subst.
  destruct Hx as [<-|Hx]; destruct Hy as [<-|Hy]; try reflexivity.
  - exfalso. apply Hnin. rewrite Hf. apply in_map. exact Hy.
  - exfalso. apply Hnin. rewrite <- Hf. apply in_map. exact Hx.
  - apply IH; assumption.
Qed.

Lemma setattr_keeps (fvs : list FieldValue) (m m' : MovieModel) :
  fold_left setattr fvs (Some m) = Some m' ->
  m_id m' = m_id m /\ m_country_id m' = m_country_id m.
Proof.
  assert (Hnone : forall l, fold_left setattr l None = None).
  { induction l; simpl; auto. }
  revert m. induction fvs as [|fv fvs IH]; simpl; intros m H.
  - injection H as <-. split; reflexivity.
  - destruct m as [i n d sc ov st b r c].
    destruct fv as [[v|]|[v|]|[v|]|v|[v|]|[v|]|[v|]];
      simpl in H; try (rewrite Hnone in H; discriminate);
      apply IH in H; simpl in H; exact H.
Qed.

Lemma find_some_in {A} (f : A -> bool) (l : list A) (x : A) :
  find f l = Some x -> In x l /\ f x = true.
Proof.
  induction l as [|a l IH]; simpl; [discriminate|].
  destruct (f a) eqn:Ha.
  - intros H. injection H as <-. split; [left; reflexivity|exact Ha].
  - intros H. destruct (IH H) as [H1 H2]. split; [right; exact H1|exact H2].
Qed.

(** C10: for every validated update payload [u] (whatever body pydantic
    turned into it, and whichever of its fields are set), a successful
    [update_movie] keeps every movie's id and country, changes no movie
    other than the addressed one, and leaves the countries, genres, actors
    and languages and all association rows as they were.  (Ids are the
    primary key of [movies].) *)
Theorem update_keeps_id_and_relations (today movie_id : Z) (u : MovieUpdateSchema)
    (s s' : Db) (msg : string) :
  NoDup (map m_id (movies s)) ->
  update_movie today movie_id u s = (Ok msg, s') ->
  Forall2 (fun m m' => m_id m' = m_id m /\ m_country_id m' = m_country_id m /\
                       (m_id m <> movie_id -> m' = m))
          (movies s) (movies s') /\
  countries s' = countries s /\ genres s' = genres s /\ actors s' = actors s /\
  languages s' = languages s /\ movies_genres s' = movies_genres s /\
  actors_movies s' = actors_movies s /\ movies_languages s' = movies_languages s.
Proof.
  intros Hnd H. unfold update_movie in H.
  destruct (find (fun m => m_id m =? movie_id) (movies s)) as [movie|] eqn:Hf; [|discriminate].
  apply find_some_in in Hf as [Hin Hid]. apply Z.eqb_eq in Hid.
  destruct (update_checks today (model_dump_exclude_unset u)); [discriminate|].
  destruct (fold_left setattr _ (Some movie)) as [m|] eqn:Hm.
  2: { simpl in H. discriminate. }
  apply setattr_keeps in Hm as [Hmi Hmc].
  unfold commit_movie in H.
  destruct (existsb _ (movies s)); [discriminate|].
  injection H as _ <-. simpl.
  repeat split; try reflexivity.
  unfold replace_movie.
  assert (Hall : forall x, In x (movies s) -> m_id x = m_id m -> x = movie).
  { intros x Hx Hxe. apply (in_map_inj m_id (movies s)); try assumption. congruence. }
  clear Hin Hnd. revert Hall.
  induction (movies s) as [|x l IH]; simpl; intros Hall; constructor.
  - destruct (Z.eqb_spec (m_id x) (m_id m)) as [He|He].
    + assert (x = movie) by (apply Hall; [left; reflexivity|exact He]). subst x.
      split; [symmetry; exact He|]. split; [exact Hmc|]. intros Hne. congruence.
    + split; [reflexivity|split; reflexivity].
  - apply IH. intros y Hy. apply Hall. right. exact Hy.
Qed.

Lemma update_keeps_id_and_relations_witness :
  let u := mkUpdate (Some "Heat"%string) (Some (ymd2ord 1995 12 15)) (Some 80%Q) None
             (Some Released) (Some 60%Q) (Some 187%Q) update_fields in
  let s' := snd (update_movie demo_today 2 u (demo_store 3)) in
  Forall2 (fun m m' => m_id m' = m_id m /\ m_country_id m' = m_country_id m /\
                       (m_id m <> 2 -> m' = m))
          (movies (demo_store 3)) (movies s') /\
  countries s' = countries (demo_store 3) /\ genres s' = genres (demo_store 3) /\
  actors s' = actors (demo_store 3) /\ languages s' = languages (demo_store 3) /\
  movies_genres s' = movies_genres (demo_store 3) /\
  actors_movies s' = actors_movies (demo_store 3) /\
  movies_languages s' = movies_languages (demo_store 3).
Proof.
  intros u s'.
  apply (update_keeps_id_and_relations demo_today 2 u (demo_store 3) s' updated_ack).
  - vm_compute. repeat constructor; simpl; lia.
  - vm_compute. reflexivity.
Defined.

(** ** Get-or-create *)

Lemma next_id_fresh {A} (id : A -> Z) (t : list A) (x : A) :
  In x t -> id x < next_id id t.
Proof.
  unfold next_id.
  enough (H : forall y, In y t -> id y <= fold_right (fun z acc => Z.max (id z) acc) 0 t)
    by (intros Hx; specialize (H x Hx); lia).
  induction t as [|a t IH]; simpl; [tauto|].
  intros y [<-|Hy].
  - apply Z.le_max_l.
  - eapply Z.le_trans; [apply IH; exact Hy|apply Z.le_max_r].
Qed.

Lemma next_id_not_in {A} (id : A -> Z) (t : list A) : ~ In (next_id id t) (map id t).
Proof.
  intros H. apply in_map_iff in H as [x [Hx Hin]].
  pose proof (next_id_fresh id t x Hin). lia.
Qed.

Lemma NoDup_app_one {A} (l : list A) (a : A) : NoDup l -> ~ In a l -> NoDup (l ++ [a]).
Proof.
  intros Hl Ha. apply NoDup_app; [exact Hl| constructor; [tauto|constructor] |].
  intros x Hx [<-|[]]. exact (Ha Hx).
Qed.

Section Resolve.
Variable T : NamedTable.
Hypothesis get_set : forall s t, tbl_get T (tbl_set T s t) = t.
Hypothesis set_set : forall s t1 t2, tbl_set T (tbl_set T s t1) t2 = tbl_set T s t2.
Hypothesis set_get : forall s, tbl_set T s (tbl_get T s) = s.

Lemma resolve_named_spec (key : string) (s : Db) :
    tbl_wf (tbl_get T s) ->
    exists r added,
      resolve_named T key s = Ok (r, tbl_set T s (tbl_get T s ++ added)) /\
      r_name r = key /\ In r (tbl_get T s ++ added) /\
      tbl_wf (tbl_get T s ++ added) /\
      (forall r0, In r0 (tbl_get T s) -> r_name r0 = key -> r = r0) /\
      ((In r (tbl_get T s) /\ added = []) \/
       (~ In key (map r_name (tbl_get T s)) /\ added = [r] /\
        r = mkNamed (next_id r_id (tbl_get T s)) key)).
  Proof.
    intros [Hn Hi]. unfold resolve_named.
    destruct (find (fun r => String.eqb (r_name r) key) (tbl_get T s)) as [r|] eqn:Hf.
    - apply find_some_in in Hf as [Hin Hk]. apply String.eqb_eq in Hk.
      exists r, []. rewrite app_nil_r, set_get.
      split; [reflexivity|]. split; [exact Hk|]. split; [exact Hin|].
      split; [split; assumption|]. split; [|left; split; [exact Hin|reflexivity]].
      intros r0 Hr0 Hk0. apply (in_map_inj r_name (tbl_get T s)); congruence.
    - assert (Hno : ~ In key (map r_name (tbl_get T s))).
      { intros H. apply in_map_iff in H as [x [Hx Hin]].
        pose proof (find_none _ _ Hf x Hin) as Hx'. simpl in Hx'.
        rewrite Hx, String.eqb_refl in Hx'. discriminate. }
      set (r := mkNamed (next_id r_id (tbl_get T s)) key).
      unfold insert_named.
      replace (existsb _ (tbl_get T s)) with false.
      2: { symmetry. apply not_true_iff_false. intros H.
           apply existsb_exists in H as [x [Hin Hx]].
           apply orb_true_iff in Hx as [Hx|Hx].
           - apply String.eqb_eq in Hx. unfold r in Hx. simpl in Hx.
             apply Hno. rewrite <- Hx. apply in_map. exact Hin.
           - apply Z.eqb_eq in Hx. unfold r in Hx. simpl in Hx.
             apply (next_id_not_in r_id (tbl_get T s)).
             rewrite <- Hx. apply in_map. exact Hin. }
      exists r, [r]. split; [reflexivity|]. split; [reflexivity|].
      split; [apply in_or_app; right; left; reflexivity|].
      split.
      + split; rewrite map_app; simpl; apply NoDup_app_one; try assumption.
        apply next_id_not_in.
      + split.
        * intros r0 Hr0 Hk0. exfalso. apply Hno. rewrite <- Hk0. apply in_map. exact Hr0.
        * right. split; [exact Hno|]. split; reflexivity.
  Qed.

Lemma resolve_all_spec (names : list string) (s : Db) :
    tbl_wf (tbl_get T s) ->
    exists rs added,
      resolve_all T names s = Ok (rs, tbl_set T s (tbl_get T s ++ added)) /\
      resolved_names (tbl_get T s) (tbl_get T s ++ added) names rs /\
      tbl_wf (tbl_get T s ++ added).
  Proof.
    revert s. induction names as [|n ns IH]; intros s Hwf.
    - exists [], []. rewrite app_nil_r, set_get. split; [reflexivity|].
      split; [|exact Hwf]. split; [exists []; rewrite app_nil_r; split; [reflexivity|constructor]|].
      split; [exact (proj1 Hwf)|constructor].
    - destruct (resolve_named_spec n s Hwf)
        as [r [added1 [Hr [Hrn [Hrin [Hwf1 [Hpre Hcase]]]]]]].
      set (s1 := tbl_set T s (tbl_get T s ++ added1)).
      assert (Hg1 : tbl_get T s1 = tbl_get T s ++ added1) by apply get_set.
      destruct (IH s1 ltac:(rewrite Hg1; exact Hwf1))
        as [rs [added2 [Hrs [[[a2 [Ha2 Hfa2]] [Hnd Hf2]] Hwf2]]]].
      rewrite Hg1 in Ha2, Hnd, Hf2, Hwf2, Hrs.
      exists (r :: rs), (added1 ++ added2).
      unfold s1 in Hrs. rewrite set_set in Hrs.
      assert (Ha12 : a2 = added2).
      { apply app_inv_head in Ha2. symmetry. exact Ha2. }
      subst a2.
      rewrite Hg1 in Hfa2.
      split.
      { simpl. unfold bind. rewrite Hr, Hrs. unfold ret. rewrite app_assoc. reflexivity. }
      rewrite app_assoc. split; [|exact Hwf2].
      split; [|split; [exact Hnd|constructor]].
      + exists (added1 ++ added2). split; [symmetry; apply app_assoc|].
        apply Forall_app. split.
        * destruct Hcase as [[_ ->]|[Hno [-> _]]]; [constructor|].
          constructor; [|constructor]. rewrite Hrn. split; [left; reflexivity|exact Hno].
        * eapply Forall_impl; [|exact Hfa2]. intros x [Hx1 Hx2].
          split; [right; exact Hx1|]. intros H. apply Hx2. rewrite map_app. apply in_or_app.
          left. exact H.
      + split; [exact Hrn|]. split; [apply in_or_app; left; exact Hrin|exact Hpre].
      + eapply Forall2_impl; [|exact Hf2]. intros n' r' [H1 [H2 H3]].
        split; [exact H1|]. split; [exact H2|].
        intros r0 Hr0 Hk0. apply H3; [apply in_or_app; left; exact Hr0|exact Hk0].
  Qed.
End Resolve.

Lemma genre_table_laws :
  (forall s t, tbl_get genre_table (tbl_set genre_table s t) = t) /\
  (forall s t1 t2, tbl_set genre_table (tbl_set genre_table s t1) t2 = tbl_set genre_table s t2) /\
  (forall s, tbl_set genre_table s (tbl_get genre_table s) = s).
Proof. repeat split; intros; try destruct s; reflexivity. Qed.

Lemma actor_table_laws :
  (forall s t, tbl_get actor_table (tbl_set actor_table s t) = t) /\
  (forall s t1 t2, tbl_set actor_table (tbl_set actor_table s t1) t2 = tbl_set actor_table s t2) /\
  (forall s, tbl_set actor_table s (tbl_get actor_table s) = s).
Proof. repeat split; intros; try destruct s; reflexivity. Qed.

Lemma language_table_laws :
  (forall s t, tbl_get language_table (tbl_set language_table s t) = t) /\
  (forall s t1 t2,
     tbl_set language_table (tbl_set language_table s t1) t2 = tbl_set language_table s t2) /\
  (forall s, tbl_set language_table s (tbl_get language_table s) = s).
Proof. repeat split; intros; try destruct s; reflexivity. Qed.

Lemma resolve_country_spec (code : string) (s : Db) :
  NoDup (map c_id (countries s)) -> NoDup (map c_code (countries s)) ->
  exists c added,
    resolve_country code s = Ok (c, set_countries s (countries s ++ added)) /\
    resolved_country (countries s) (countries s ++ added) code c /\
    In c (countries s ++ added) /\
    NoDup (map c_id (countries s ++ added)).
Proof.
  intros Hi Hc. unfold resolve_country.
  destruct (find (fun c => String.eqb (c_code c) code) (countries s)) as [c|] eqn:Hf.
  - apply find_some_in in Hf as [Hin Hk]. apply String.eqb_eq in Hk.
    exists c, []. rewrite app_nil_r.
    split; [destruct s; reflexivity|].
    split; [|split; [exact Hin|exact Hi]].
    split; [exact Hk|]. split; [|left; split; [exact Hin|reflexivity]].
    intros c0 Hc0 Hk0. apply (in_map_inj c_code (countries s)); congruence.
  - assert (Hno : ~ In code (map c_code (countries s))).
    { intros H. apply in_map_iff in H as [x [Hx Hin]].
      pose proof (find_none _ _ Hf x Hin) as Hx'. simpl in Hx'.
      rewrite Hx, String.eqb_refl in Hx'. discriminate. }
    set (c := mkCountry (next_id c_id (countries s)) code None).
    unfold insert_country.
    replace (existsb _ (countries s)) with false.
    2: { symmetry. apply not_true_iff_false. intros H.
         apply existsb_exists in H as [x [Hin Hx]].
         apply orb_true_iff in Hx as [Hx|Hx].
         - apply String.eqb_eq in Hx. unfold c in Hx. simpl in Hx.
           apply Hno. rewrite <- Hx. apply in_map. exact Hin.
         - apply Z.eqb_eq in Hx. unfold c in Hx. simpl in Hx.
           apply (next_id_not_in c_id (countries s)). rewrite <- Hx. apply in_map. exact Hin. }
    exists c, [c]. split; [reflexivity|].
    split; [|split; [apply in_or_app; right; left; reflexivity|]].
    + split; [reflexivity|]. split.
      * intros c0 Hc0 Hk0. exfalso. apply Hno. rewrite <- Hk0. apply in_map. exact Hc0.
      * right. split; [exact Hno|]. split; reflexivity.
    + rewrite map_app. apply NoDup_app_one; [exact Hi|apply next_id_not_in].
Qed.

Lemma find_app_skip {A} (f : A -> bool) (l l' : list A) :
  (forall y, In y l -> f y = false) -> find f (l ++ l') = find f l'.
Proof.
  induction l as [|a l IH]; simpl; intros H; [reflexivity|].
  rewrite (H a (or_introl eq_refl)). apply IH. intros y Hy. apply H. right. exact Hy.
Qed.

Lemma find_by_key {A} (key : A -> Z) (l : list A) (x : A) :
  NoDup (map key l) -> In x l -> find (fun y => key y =? key x) l = Some x.
Proof.
  induction l as [|a l IH]; simpl; [tauto|].
  intros Hnd Hx. inversion Hnd as [|b l' Hnin Hnd']; subst.
  destruct Hx as [<-|Hx].
  - rewrite Z.eqb_refl. reflexivity.
  - destruct (Z.eqb_spec (key a) (key x)) as [He|He].
    + exfalso. apply Hnin. rewrite He. apply in_map. exact Hx.
    + apply IH; assumption.
Qed.

Lemma load_related_new (mid : Z) (old : list (Z * Z)) (rows t : list NamedModel) :
  (forall l, In l old -> fst l <> mid) ->
  NoDup (map r_id t) -> (forall r, In r rows -> In r t) ->
  load_related mid (old ++ link_rows mid rows) t = rows.
Proof.
  intros Hold Hnd Hin. unfold load_related. rewrite flat_map_app.
  replace (flat_map _ old) with (@nil NamedModel).
  2: { induction old as [|[m o] old IH]; simpl; [reflexivity|].
       destruct (Z.eqb_spec m mid) as [He|He].
       - exfalso. exact (Hold (m, o) (or_introl eq_refl) He).
       - apply IH. intros l Hl. apply Hold. right. exact Hl. }
  simpl. induction rows as [|r rows IH]; simpl; [reflexivity|].
  rewrite Z.eqb_refl. rewrite (find_by_key r_id t r Hnd (Hin r (or_introl eq_refl))).
  simpl. f_equal. apply IH. intros r' Hr'. apply Hin. right. exact Hr'.
Qed.

Lemma resolved_names_map (old new : list NamedModel) names rows :
  resolved_names old new names rows -> map r_name rows = names.
Proof.
  intros [_ [_ H]]. induction H as [|n r ns rs [Hn _] _ IH]; simpl; [reflexivity|].
  rewrite Hn, IH. reflexivity.
Qed.

Lemma resolved_names_in (old new : list NamedModel) names rows :
  resolved_names old new names rows -> forall r, In r rows -> In r new.
Proof.
  intros [_ [_ H]]. induction H as [|n r ns rs [_ [Hr _]] _ IH]; simpl; [tauto|].
  intros r' [<-|Hr']; [exact Hr|apply IH; exact Hr'].
Qed.

Lemma bind_ok {A B} (c : M A) (k : A -> M B) s a s' :
  c s = Ok (a, s') -> bind c k s = k a s'.
Proof. intros H. unfold bind. rewrite H. reflexivity. Qed.

Lemma bind_err {A B} (c : M A) (k : A -> M B) s e :
  c s = Err e -> bind c k s = Err e.
Proof. intros H. unfold bind. rewrite H. reflexivity. Qed.

(** What a successful run of the creation body produces. *)
Lemma create_body_spec (p : MovieCreateSchema) (s1 s2 : Db) (d : MovieDetailSchema) :
  wf_db s1 -> create_body p s1 = Ok (d, s2) ->
  resolved_country (countries s1) (countries s2) (p_country p) (d_country d) /\
  resolved_names (genres s1) (genres s2) (p_genres p) (d_genres d) /\
  resolved_names (actors s1) (actors s2) (p_actors p) (d_actors d) /\
  resolved_names (languages s1) (languages s2) (p_languages p) (d_languages d) /\
  d_name d = p_name p /\ d_date d = p_date p /\ d_score d = p_score p /\
  d_overview d = p_overview p /\ d_status d = p_status p /\
  d_budget d = p_budget p /\ d_revenue d = p_revenue p /\
  get_movie_by_id (d_id d) s2 = Ok d.
Proof.
  intros [Hci [Hcc [Hg [Ha [Hl [Lg [La Ll]]]]]]] H.
  destruct (resolve_country_spec (p_country p) s1 Hci Hcc)
    as [c [addc [Hc [Hrc [Hcin Hci']]]]].
  unfold create_body in H. rewrite (bind_ok _ _ _ _ _ Hc) in H.
  set (sc := set_countries s1 (countries s1 ++ addc)) in H.
  set (mk := fun id => mkMovie id (p_name p) (p_date p) (p_score p) (p_overview p)
                         (p_status p) (p_budget p) (p_revenue p) (c_id c)) in H.
  destruct (add_movie mk sc) as [[movie sm]|e] eqn:Hm.
  2: { rewrite (bind_err _ _ _ _ Hm) in H. discriminate. }
  rewrite (bind_ok _ _ _ _ _ Hm) in H.
  unfold add_movie, insert_movie in Hm.
  destruct (existsb _ (movies sc)); [discriminate|].
  injection Hm as Hmv Hsm. subst movie sm.
  set (mid := next_id m_id (movies sc)) in *.
  set (movie := mk mid) in *.
  set (sm := set_movies sc (movies sc ++ [movie])) in H.
  destruct genre_table_laws as [g1 [g2 g3]].
  destruct (resolve_all_spec genre_table g1 g2 g3 (p_genres p) sm Hg)
    as [gs [addg [Hgs [Hrg Hwfg]]]].
  rewrite (bind_ok _ _ _ _ _ Hgs) in H.
  set (sg := tbl_set genre_table sm (tbl_get genre_table sm ++ addg)) in H.
  destruct actor_table_laws as [a1 [a2 a3]].
  destruct (resolve_all_spec actor_table a1 a2 a3 (p_actors p) sg Ha)
    as [as_ [adda [Has [Hra Hwfa]]]].
  rewrite (bind_ok _ _ _ _ _ Has) in H.
  set (sa := tbl_set actor_table sg (tbl_get actor_table sg ++ adda)) in H.
  destruct language_table_laws as [l1 [l2 l3]].
  destruct (resolve_all_spec language_table l1 l2 l3 (p_languages p) sa Hl)
    as [ls [addl [Hls [Hrl Hwfl]]]].
  rewrite (bind_ok _ _ _ _ _ Hls) in H.
  set (sl := tbl_set language_table sa (tbl_get language_table sa ++ addl)) in H.
  unfold bind at 1 in H. unfold commit_links at 1 in H.
  set (sf := set_links sl _ _ _) in H.
  assert (Hmid : mid = next_id m_id (movies s1)) by reflexivity.
  assert (Hfresh : forall l links, links_ok (movies s1) links -> In l links -> fst l <> mid).
  { intros l links Hok Hin He. apply (next_id_not_in m_id (movies s1)).
    rewrite <- Hmid, <- He. apply Hok. exact Hin. }
  assert (Hget : _get_movie_or_404 mid sf
                 = Ok (mkDetail mid (p_name p) (p_date p) (p_score p) (p_overview p)
                         (p_status p) (p_budget p) (p_revenue p) c gs as_ ls)).
  { unfold _get_movie_or_404. simpl.
    rewrite find_app_skip.
    2: { intros y Hy. apply Z.eqb_neq. intros He.
         apply (next_id_not_in m_id (movies s1)). rewrite <- Hmid, <- He.
         apply in_map. exact Hy. }
    simpl. rewrite Z.eqb_refl.
    idtac.
    simpl in Hrg, Hra, Hrl, Hwfg, Hwfa, Hwfl.
    rewrite !load_related_new.
    - change (m_country_id movie) with (c_id c).
      rewrite (find_by_key c_id (countries s1 ++ addc) c Hci' Hcin). reflexivity.
    - intros l Hin. exact (Hfresh l _ Ll Hin).
    - exact (proj2 Hwfl).
    - apply (resolved_names_in _ _ _ _ Hrl).
    - intros l Hin. exact (Hfresh l _ La Hin).
    - exact (proj2 Hwfa).
    - apply (resolved_names_in _ _ _ _ Hra).
    - intros l Hin. exact (Hfresh l _ Lg Hin).
    - exact (proj2 Hwfg).
    - apply (resolved_names_in _ _ _ _ Hrg). }
  change (m_id (mk (next_id m_id (movies s1)))) with mid in H.
  rewrite Hget in H. injection H as <- <-.
  simpl in Hrg, Hra, Hrl |- *.
  split; [exact Hrc|]. split; [exact Hrg|]. split; [exact Hra|]. split; [exact Hrl|].
  do 7 (split; [reflexivity|]). exact Hget.
Qed.

Lemma create_movie_ok (conc : Db -> Db) (today : Z) (p : MovieCreateSchema) (s s' : Db)
    (d : MovieDetailSchema) :
  create_movie conc today p s = (Ok d, s') -> create_body p (conc s) = Ok (d, s').
Proof.
  unfold create_movie.
  destruct (date_add_days today 365); [|discriminate].
  destruct (_ <? p_date p); [discriminate|].
  destruct (existsb _ (movies s)); [discriminate|].
  destruct (create_body p (conc s)) as [[d0 s0]|e]; [|discriminate].
  intros H. injection H as -> ->. reflexivity.
Qed.

Lemma resolve_named_name T key s r s' :
  resolve_named T key s = Ok (r, s') -> r_name r = key.
Proof.
  unfold resolve_named.
  destruct (find _ _) as [r0|] eqn:Hf.
  - intros H. injection H as <- _. apply find_some_in in Hf as [_ Hk].
    apply String.eqb_eq. exact Hk.
  - destruct (insert_named _ _); [|discriminate]. intros H. injection H as <- _. reflexivity.
Qed.

(** C1: on every successful creation, with the store's constraints in
    force, the country is looked up by code and genres, actors and
    languages by name: an existing row is reused (the movie's association
    is that very row), a name with no row gets exactly one new row carrying
    only its natural key (a new country has no display name), rows are only
    ever appended, and names stay unique even when a name is repeated in
    the payload. *)
Theorem create_resolves_references (conc : Db -> Db) (today : Z) (p : MovieCreateSchema)
    (s s' : Db) (d : MovieDetailSchema) :
  wf_db (conc s) ->
  create_movie conc today p s = (Ok d, s') ->
  resolved_country (countries (conc s)) (countries s') (p_country p) (d_country d) /\
  resolved_names (genres (conc s)) (genres s') (p_genres p) (d_genres d) /\
  resolved_names (actors (conc s)) (actors s') (p_actors p) (d_actors d) /\
  resolved_names (languages (conc s)) (languages s') (p_languages p) (d_languages d).
Proof.
  intros Hwf H. apply create_movie_ok in H.
  destruct (create_body_spec p (conc s) s' d Hwf H) as [Hc [Hg [Ha [Hl _]]]].
  split; [exact Hc|]. split; [exact Hg|]. split; [exact Ha|exact Hl].
Qed.

(** C7: right after a successful creation, fetching the movie by its id
    succeeds and gives back every submitted scalar field, the country code
    and the genre, actor and language names as submitted. *)
Theorem create_then_fetch (conc : Db -> Db) (today : Z) (p : MovieCreateSchema)
    (s s' : Db) (d : MovieDetailSchema) :
  wf_db (conc s) ->
  create_movie conc today p s = (Ok d, s') ->
  exists d', get_movie_by_id (d_id d) s' = Ok d' /\
    d_name d' = p_name p /\ d_date d' = p_date p /\ d_score d' = p_score p /\
    d_overview d' = p_overview p /\ d_status d' = p_status p /\
    d_budget d' = p_budget p /\ d_revenue d' = p_revenue p /\
    c_code (d_country d') = p_country p /\
    map r_name (d_genres d') = p_genres p /\
    map r_name (d_actors d') = p_actors p /\
    map r_name (d_languages d') = p_languages p.
Proof.
  intros Hwf H. apply create_movie_ok in H.
  destruct (create_body_spec p (conc s) s' d Hwf H)
    as [Hc [Hg [Ha [Hl [Hn [Hd [Hs [Ho [Ht [Hb [Hr Hget]]]]]]]]]]].
  exists d. split; [exact Hget|].
  do 7 (split; [assumption|]).
  split; [exact (proj1 Hc)|].
  split; [exact (resolved_names_map _ _ _ _ Hg)|].
  split; [exact (resolved_names_map _ _ _ _ Ha)|].
  exact (resolved_names_map _ _ _ _ Hl).
Qed.

(** C8: the loops of [create_movie] append the resolved rows in the order
    of the payload's lists, and the created movie returned by the request
    lists its genres, actors and languages in that order. *)
Theorem create_keeps_list_order :
  (forall T names s rs s', resolve_all T names s = Ok (rs, s') -> map r_name rs = names) /\
  (forall (conc : Db -> Db) (today : Z) (p : MovieCreateSchema) (s s' : Db)
          (d : MovieDetailSchema),
     wf_db (conc s) ->
     create_movie conc today p s = (Ok d, s') ->
     map r_name (d_genres d) = p_genres p /\
     map r_name (d_actors d) = p_actors p /\
     map r_name (d_languages d) = p_languages p).
Proof.
  split.
  - intros T names. induction names as [|n ns IH]; intros s rs s' H.
    + simpl in H. injection H as <- _. reflexivity.
    + simpl in H. unfold bind at 1 in H.
      destruct (resolve_named T n s) as [[r s1]|e] eqn:Hr; [|discriminate].
      unfold bind in H. destruct (resolve_all T ns s1) as [[rs1 s2]|e] eqn:Hrs; [|discriminate].
      unfold ret in H. injection H as <- _. simpl.
      rewrite (resolve_named_name _ _ _ _ _ Hr), (IH _ _ _ Hrs). reflexivity.
  - intros conc today p s s' d Hwf H. apply create_movie_ok in H.
    destruct (create_body_spec p (conc s) s' d Hwf H) as [_ [Hg [Ha [Hl _]]]].
    split; [exact (resolved_names_map _ _ _ _ Hg)|].
    split; [exact (resolved_names_map _ _ _ _ Ha)|].
    exact (resolved_names_map _ _ _ _ Hl).
Qed.

(** A store with one movie linked to the genre "Drama". *)
Definition demo_rel_store : Db :=
  mkDb [demo_movie 1] [mkCountry 1 "US" None] [mkNamed 1 "Drama"]
       [mkNamed 1 "Tom"] [mkNamed 1 "English"] [(1, 1)] [(1, 1)] [(1, 1)].

(** A payload with a new country code, a reused genre and a new genre
    given twice. *)
Definition demo_rel_payload : MovieCreateSchema :=
  mkCreate "Heat" (ymd2ord 1995 12 15) 83 (Some "A heist."%string) Released 60 187 "FR"%string
    ["Drama"; "Crime"; "Crime"]%string ["Al"; "Tom"]%string ["English"; "Spanish"]%string.

Lemma demo_rel_store_wf : wf_db demo_rel_store.
Proof.
  unfold wf_db, tbl_wf, links_ok; simpl.
  assert (Hn : forall (A : Type) (x : A), NoDup [x]) by (intros; constructor; [intros []|constructor]).
  assert (Hl : forall l : Z * Z, In l [(1, 1)] -> In (fst l) [1]).
  { intros l [<-|[]]. left. reflexivity. }
  repeat split; auto.
Qed.

Definition demo_rel_result := create_movie (fun s => s) demo_today demo_rel_payload demo_rel_store.

Definition demo_rel_detail : MovieDetailSchema :=
  match fst demo_rel_result with Ok d => d | Err _ => mkDetail 0 "" 0 0 None Released 0 0 (mkCountry 0 "" None) [] [] [] end.

Lemma demo_rel_result_ok : demo_rel_result = (Ok demo_rel_detail, snd demo_rel_result).
Proof. vm_compute. reflexivity. Qed.

Lemma create_resolves_references_witness :
  exists (d : MovieDetailSchema) (s' : Db),
    wf_db demo_rel_store /\
    create_movie (fun s => s) demo_today demo_rel_payload demo_rel_store = (Ok d, s') /\
    resolved_country (countries demo_rel_store) (countries s') "FR" (d_country d) /\
    resolved_names (genres demo_rel_store) (genres s') ["Drama"; "Crime"; "Crime"]%string (d_genres d) /\
    resolved_names (actors demo_rel_store) (actors s') ["Al"; "Tom"]%string (d_actors d) /\
    resolved_names (languages demo_rel_store) (languages s') ["English"; "Spanish"]%string
      (d_languages d) /\
    map r_id (d_genres d) = [1; 2; 2] /\ map r_id (d_actors d) = [2; 1] /\
    genres s' = [mkNamed 1 "Drama"; mkNamed 2 "Crime"].
Proof.
  exists demo_rel_detail, (snd demo_rel_result).
  pose proof demo_rel_result_ok as Hr. unfold demo_rel_result in Hr.
  destruct (create_resolves_references (fun s => s) demo_today demo_rel_payload demo_rel_store
              _ _ demo_rel_store_wf Hr) as [Hc [Hg [Ha Hl]]].
  split; [exact demo_rel_store_wf|]. split; [exact Hr|].
  split; [exact Hc|]. split; [exact Hg|]. split; [exact Ha|]. split; [exact Hl|].
  vm_compute. split; [reflexivity|]. split; reflexivity.
Defined.

Lemma create_then_fetch_witness :
  exists (d d' : MovieDetailSchema) (s' : Db),
    wf_db demo_rel_store /\
    create_movie (fun s => s) demo_today demo_rel_payload demo_rel_store = (Ok d, s') /\
    get_movie_by_id (d_id d) s' = Ok d' /\
    d_name d' = "Heat"%string /\ d_date d' = ymd2ord 1995 12 15 /\ d_score d' = 83%Q /\
    d_overview d' = Some "A heist."%string /\ d_status d' = Released /\
    d_budget d' = 60%Q /\ d_revenue d' = 187%Q /\ c_code (d_country d') = "FR"%string /\
    map r_name (d_genres d') = ["Drama"; "Crime"; "Crime"]%string /\
    map r_name (d_actors d') = ["Al"; "Tom"]%string /\
    map r_name (d_languages d') = ["English"; "Spanish"]%string.
Proof.
  pose proof demo_rel_result_ok as Hr. unfold demo_rel_result in Hr.
  destruct (create_then_fetch (fun s => s) demo_today demo_rel_payload demo_rel_store
              _ _ demo_rel_store_wf Hr) as [d' H].
  exists demo_rel_detail, d', (snd demo_rel_result).
  split; [exact demo_rel_store_wf|]. split; [exact Hr|]. exact H.
Defined.

Lemma create_keeps_list_order_witness :
  exists (d : MovieDetailSchema) (s' : Db),
    wf_db demo_rel_store /\
    create_movie (fun s => s) demo_today demo_rel_payload demo_rel_store = (Ok d, s') /\
    map r_name (d_genres d) = ["Drama"; "Crime"; "Crime"]%string /\
    map r_name (d_actors d) = ["Al"; "Tom"]%string /\
    map r_name (d_languages d) = ["English"; "Spanish"]%string.
Proof.
  pose proof demo_rel_result_ok as Hr. unfold demo_rel_result in Hr.
  exists demo_rel_detail, (snd demo_rel_result).
  split; [exact demo_rel_store_wf|]. split; [exact Hr|].
  exact (proj2 create_keeps_list_order (fun s => s) demo_today demo_rel_payload demo_rel_store
           _ _ demo_rel_store_wf Hr).
Defined.

(** ** DELETE and fetch by id *)

Lemma find_id_none (ms : list MovieModel) (i : Z) :
  find (fun m => m_id m =? i) ms = None <-> ~ In i (map m_id ms).
Proof.
  induction ms as [|a ms IH]; simpl; [tauto|].
  destruct (m_id a =? i) eqn:Ha.
  - apply Z.eqb_eq in Ha. split; [discriminate|]. intros H. exfalso. apply H. left. exact Ha.
  - apply Z.eqb_neq in Ha. rewrite IH. split; intros H; [intros [H'|H']; [exact (Ha H')|exact (H H')]|].
    intros H'. apply H. right. exact H'.
Qed.

Lemma find_id_some (ms : list MovieModel) (i : Z) (m : MovieModel) :
  find (fun m => m_id m =? i) ms = Some m -> In m ms /\ m_id m = i.
Proof.
  intros H. apply find_some_in in H as [Hin Hk]. split; [exact Hin|]. apply Z.eqb_eq. exact Hk.
Qed.

Lemma delete_rows_wf (mid : Z) (s : Db) : wf_db s -> wf_db (delete_rows mid s).
Proof.
  unfold wf_db, delete_rows, links_ok, drop_links; simpl.
  intros (H1 & H2 & H3 & H4 & H5 & H6 & H7 & H8).
  assert (Hk : forall links : list (Z * Z), (forall l, In l links -> In (fst l) (map m_id (movies s))) ->
            forall l, In l (filter (fun l => negb (fst l =? mid)) links) ->
            In (fst l) (map m_id (filter (fun m => negb (m_id m =? mid)) (movies s)))).
  { intros links Hl l Hin. apply filter_In in Hin as [Hin Hne].
    pose proof (Hl l Hin) as Hx. apply in_map_iff in Hx as [m [Hm Hmi]].
    apply in_map_iff. exists m. split; [exact Hm|]. apply filter_In. split; [exact Hmi|].
    rewrite Hm. exact Hne. }
  split; [exact H1|]. split; [exact H2|]. split; [exact H3|]. split; [exact H4|].
  split; [exact H5|]. split; [apply Hk; exact H6|]. split; apply Hk; assumption.
Qed.

(** X1: DELETE of an id with no movie answers 404 and changes nothing; of a
    stored id it answers with no content, after which fetching or deleting
    that id answers 404, the other movies and the country, genre, actor and
    language tables are unchanged, and the store's constraints still hold. *)
Theorem delete_movie_spec (movie_id : Z) (s : Db) :
  (~ In movie_id (map m_id (movies s)) ->
     delete_movie movie_id s = (Err not_found_movie, s)) /\
  (In movie_id (map m_id (movies s)) ->
     let s' := delete_rows movie_id s in
     delete_movie movie_id s = (Ok tt, s') /\
     get_movie_by_id movie_id s' = Err not_found_movie /\
     delete_movie movie_id s' = (Err not_found_movie, s') /\
     (forall m, In m (movies s') <-> In m (movies s) /\ m_id m <> movie_id) /\
     countries s' = countries s /\ genres s' = genres s /\ actors s' = actors s /\
     languages s' = languages s /\
     (wf_db s -> wf_db s')).
Proof.
  split.
  - intros H. unfold delete_movie. apply find_id_none in H. rewrite H. reflexivity.
  - intros H s'.
    assert (Hgone : find (fun m => m_id m =? movie_id) (movies s') = None).
    { apply find_id_none. unfold s', delete_rows; simpl. intros Hin.
      apply in_map_iff in Hin as [m [Hm Hin]]. apply filter_In in Hin as [_ Hne].
      rewrite Hm, Z.eqb_refl in Hne. discriminate. }
    split.
    + unfold delete_movie. destruct (find _ (movies s)) as [m|] eqn:Hf.
      * apply find_id_some in Hf as [_ <-]. reflexivity.
      * apply find_id_none in Hf. contradiction.
    + split; [unfold get_movie_by_id, _get_movie_or_404; rewrite Hgone; reflexivity|].
      split; [unfold delete_movie; rewrite Hgone; reflexivity|].
      split.
      * intros m. unfold s', delete_rows; simpl. rewrite filter_In.
        rewrite negb_true_iff, Z.eqb_neq. tauto.
      * do 4 (split; [reflexivity|]). apply delete_rows_wf.
Qed.

(** ** Paging through the whole list *)

Lemma firstn_add_split {A} (a b : nat) (l : list A) :
  firstn (a + b) l = firstn a l ++ firstn b (skipn a l).
Proof.
  revert l. induction a as [|a IH]; intros l; [reflexivity|].
  destruct l as [|x l]; simpl; [rewrite firstn_nil; reflexivity|]. rewrite IH. reflexivity.
Qed.

Lemma page_chunks {A} (p : nat) (l : list A) (m start : nat) :
  flat_map (fun k => firstn p (skipn ((k - 1) * p)%nat l)) (seq (S start) m)
  = firstn (m * p)%nat (skipn (start * p)%nat l).
Proof.
  revert start. induction m as [|m IH]; intros start; [reflexivity|].
  cbn [seq flat_map]. rewrite IH.
  replace (S start - 1)%nat with start by lia.
  replace (S m * p)%nat with (p + m * p)%nat by lia.
  rewrite firstn_add_split, skipn_skipn.
  replace (S start * p)%nat with (p + start * p)%nat by lia. reflexivity.
Qed.

Lemma flat_map_ext_in {A B} (f g : A -> list B) (xs : list A) :
  (forall x, In x xs -> f x = g x) -> flat_map f xs = flat_map g xs.
Proof.
  induction xs as [|x xs IH]; simpl; intros H; [reflexivity|].
  rewrite (H x (or_introl eq_refl)), IH; [reflexivity|]. intros y Hy. apply H. right. exact Hy.
Qed.

Lemma flat_map_map_out {A B C} (g : B -> C) (h : A -> list B) (xs : list A) :
  flat_map (fun k => map g (h k)) xs = map g (flat_map h xs).
Proof.
  induction xs as [|x xs IH]; simpl; [reflexivity|]. rewrite map_app, IH. reflexivity.
Qed.

Lemma get_movies_in_range (page per_page : Z) (s : Db) :
  let n := Z.of_nat (List.length (movies s)) in
  1 <= per_page <= 20 -> 0 < n < 2 ^ 48 ->
  1 <= page <= (n + per_page - 1) / per_page ->
  exists r, get_movies page per_page s s = Ok r /\
    l_movies r = map short_of (offset_limit ((page - 1) * per_page) per_page
                                 (order_by_id_desc (movies s))) /\
    l_movies r <> [].
Proof.
  intros n Hpp Hn Hpage.
  pose proof (Z.div_mod (n + per_page - 1) per_page ltac:(lia)) as Hdm.
  pose proof (Z.mod_pos_bound (n + per_page - 1) per_page ltac:(lia)) as Hmb.
  set (tp := (n + per_page - 1) / per_page) in *.
  set (ordered := order_by_id_desc (movies s)).
  assert (Hlen : List.length ordered = List.length (movies s))
    by (symmetry; apply Permutation_length, order_by_id_desc_perm).
  assert (Hoff : (Z.to_nat ((page - 1) * per_page) < List.length ordered)%nat).
  { rewrite Hlen. assert (Hlt : (page - 1) * per_page < n) by nia. unfold n in Hlt. lia. }
  assert (Hne : offset_limit ((page - 1) * per_page) per_page ordered <> []).
  { unfold offset_limit. destruct (skipn _ ordered) as [|x xs] eqn:Hs.
    - apply (f_equal (@List.length _)) in Hs. rewrite length_skipn in Hs. simpl in Hs. lia.
    - replace (Z.to_nat per_page) with (S (Z.to_nat per_page - 1)) by lia. simpl. discriminate. }
  unfold get_movies. fold n.
  replace (n =? 0) with false by (symmetry; apply Z.eqb_neq; lia).
  rewrite py_ceil_truediv_exact by lia. fold tp.
  replace (tp <? page) with false by (symmetry; apply Z.ltb_ge; lia).
  fold ordered. destruct (offset_limit _ _ ordered) as [|x xs] eqn:Hs; [contradiction|].
  eexists. split; [reflexivity|]. split; [reflexivity|]. simpl. discriminate.
Qed.

(** X3: with one store state, a valid [per_page] and between 1 and 2^48
    movies, every page from 1 to [total_pages] answers 200 with a non-empty
    page, and these pages, read in order, list every movie exactly once,
    in descending id order. *)
Theorem get_movies_pages_cover (per_page : Z) (s : Db) :
  let n := Z.of_nat (List.length (movies s)) in
  let tp := (n + per_page - 1) / per_page in
  1 <= per_page <= 20 -> 0 < n < 2 ^ 48 ->
  (forall page, 1 <= page <= tp ->
     exists r, get_movies page per_page s s = Ok r /\ l_movies r <> []) /\
  flat_map (fun k => match get_movies (Z.of_nat k) per_page s s with
                     | Ok r => l_movies r | Err _ => [] end)
           (seq 1 (Z.to_nat tp))
  = map short_of (order_by_id_desc (movies s)).
Proof.
  intros n tp Hpp Hn.
  pose proof (Z.div_mod (n + per_page - 1) per_page ltac:(lia)) as Hdm.
  pose proof (Z.mod_pos_bound (n + per_page - 1) per_page ltac:(lia)) as Hmb.
  fold tp in Hdm.
  split.
  - intros page Hpage.
    destruct (get_movies_in_range page per_page s Hpp Hn Hpage) as [r [Hr [_ Hne]]].
    exists r. split; assumption.
  - set (ordered := order_by_id_desc (movies s)).
    set (p := Z.to_nat per_page).
    rewrite (flat_map_ext_in _ (fun k => map short_of (firstn p (skipn ((k - 1) * p)%nat ordered)))).
    + rewrite flat_map_map_out. f_equal.
      replace 1%nat with (S 0) by reflexivity. rewrite page_chunks. simpl skipn.
      apply firstn_all2.
      assert (Hlen : List.length ordered = List.length (movies s))
        by (symmetry; apply Permutation_length, order_by_id_desc_perm).
      rewrite Hlen. unfold p.
      assert (Hle : n <= tp * per_page) by nia. unfold n in Hle.
      rewrite <- Z2Nat.inj_mul by nia. lia.
    + intros k Hk. apply in_seq in Hk.
      assert (Hpage : 1 <= Z.of_nat k <= tp) by lia.
      destruct (get_movies_in_range (Z.of_nat k) per_page s Hpp Hn Hpage) as [r [Hr [Hl _]]].
      rewrite Hr, Hl. unfold offset_limit. fold ordered. f_equal. f_equal. f_equal.
      unfold p. rewrite Z2Nat.inj_mul by lia. f_equal. lia.
Qed.

(** ** What a creation writes *)

Lemma links_ok_extend (ms : list MovieModel) (m : MovieModel) (links : list (Z * Z))
    (rs : list NamedModel) :
  links_ok ms links -> links_ok (ms ++ [m]) (links ++ link_rows (m_id m) rs).
Proof.
  unfold links_ok, link_rows. intros H l Hin. rewrite map_app. apply in_or_app.
  apply in_app_or in Hin as [Hin|Hin]; [left; apply H; exact Hin|].
  right. apply in_map_iff in Hin as [r [<- _]]. left. reflexivity.
Qed.

Lemma resolved_country_codes (old new : list CountryModel) (code : string) (c : CountryModel) :
  NoDup (map c_code old) -> resolved_country old new code c -> NoDup (map c_code new).
Proof.
  intros Hnd [Hcode [_ [[_ ->]|[Hnin [_ ->]]]]]; [exact Hnd|].
  rewrite map_app. simpl. apply NoDup_app_one; [exact Hnd|]. rewrite Hcode. exact Hnin.
Qed.

Lemma create_body_store (p : MovieCreateSchema) (s1 s2 : Db) (d : MovieDetailSchema) :
  wf_db s1 -> create_body p s1 = Ok (d, s2) ->
  movies s2 = movies s1 ++ [mkMovie (d_id d) (p_name p) (p_date p) (p_score p)
                             (p_overview p) (p_status p) (p_budget p) (p_revenue p)
                             (c_id (d_country d))] /\
  d_id d = next_id m_id (movies s1) /\
  (exists gs, movies_genres s2 = movies_genres s1 ++ link_rows (d_id d) gs) /\
  (exists as_, actors_movies s2 = actors_movies s1 ++ link_rows (d_id d) as_) /\
  (exists ls, movies_languages s2 = movies_languages s1 ++ link_rows (d_id d) ls) /\
  wf_db s2.
Proof.
  intros [Hci [Hcc [Hg [Ha [Hl [Lg [La Ll]]]]]]] H.
  destruct (resolve_country_spec (p_country p) s1 Hci Hcc)
    as [c [addc [Hc [Hrc [Hcin Hci']]]]].
  unfold create_body in H. rewrite (bind_ok _ _ _ _ _ Hc) in H.
  set (sc := set_countries s1 (countries s1 ++ addc)) in H.
  set (mk := fun id => mkMovie id (p_name p) (p_date p) (p_score p) (p_overview p)
                         (p_status p) (p_budget p) (p_revenue p) (c_id c)) in H.
  destruct (add_movie mk sc) as [[movie sm]|e] eqn:Hm.
  2: { rewrite (bind_err _ _ _ _ Hm) in H. discriminate. }
  rewrite (bind_ok _ _ _ _ _ Hm) in H.
  unfold add_movie, insert_movie in Hm.
  destruct (existsb _ (movies sc)); [discriminate|].
  injection Hm as Hmv Hsm. subst movie sm.
  set (mid := next_id m_id (movies sc)) in *.
  set (movie := mk mid) in *.
  set (sm := set_movies sc (movies sc ++ [movie])) in H.
  destruct genre_table_laws as [g1 [g2 g3]].
  destruct (resolve_all_spec genre_table g1 g2 g3 (p_genres p) sm Hg)
    as [gs [addg [Hgs [Hrg Hwfg]]]].
  rewrite (bind_ok _ _ _ _ _ Hgs) in H.
  set (sg := tbl_set genre_table sm (tbl_get genre_table sm ++ addg)) in H.
  destruct actor_table_laws as [a1 [a2 a3]].
  destruct (resolve_all_spec actor_table a1 a2 a3 (p_actors p) sg Ha)
    as [as_ [adda [Has [Hra Hwfa]]]].
  rewrite (bind_ok _ _ _ _ _ Has) in H.
  set (sa := tbl_set actor_table sg (tbl_get actor_table sg ++ adda)) in H.
  destruct language_table_laws as [l1 [l2 l3]].
  destruct (resolve_all_spec language_table l1 l2 l3 (p_languages p) sa Hl)
    as [ls [addl [Hls [Hrl Hwfl]]]].
  rewrite (bind_ok _ _ _ _ _ Hls) in H.
  set (sl := tbl_set language_table sa (tbl_get language_table sa ++ addl)) in H.
  unfold bind at 1 in H. unfold commit_links at 1 in H.
  set (sf := set_links sl _ _ _) in H.
  assert (Hmid : mid = next_id m_id (movies s1)) by reflexivity.
  assert (Hsf : movies sf = movies s1 ++ [movie]) by reflexivity.
  cbv beta in H. change (m_id (mk (next_id m_id (movies s1)))) with (m_id movie) in H.
  destruct (_get_movie_or_404 (m_id movie) sf) as [d0|e] eqn:Hget; [|discriminate].
  injection H as <- <-.
  unfold _get_movie_or_404 in Hget. rewrite Hsf in Hget.
  rewrite find_app_skip in Hget.
  2: { intros y Hy. apply Z.eqb_neq. intros He.
       apply (next_id_not_in m_id (movies s1)). rewrite <- Hmid.
       change (m_id movie) with mid in He. rewrite <- He. apply in_map. exact Hy. }
  simpl in Hget. rewrite Z.eqb_refl in Hget.
  match type of Hget with context [find ?f ?l] => destruct (find f l) as [c'|] eqn:Hc'; [|discriminate] end.
  apply find_some_in in Hc' as [_ Hcc']. apply Z.eqb_eq in Hcc'.
  injection Hget as <-. simpl. change (m_country_id movie) with (c_id c) in Hcc'.
  rewrite Hcc'.
  split; [exact Hsf|]. split; [exact Hmid|].
  split; [eexists; reflexivity|]. split; [eexists; reflexivity|].
  split; [eexists; reflexivity|].
  simpl in Hrc, Hwfg, Hwfa, Hwfl.
  unfold wf_db. simpl.
  split; [exact Hci'|]. split; [exact (resolved_country_codes _ _ _ _ Hcc Hrc)|].
  split; [exact Hwfg|]. split; [exact Hwfa|]. split; [exact Hwfl|].
  split; [apply (links_ok_extend _ movie); exact Lg|].
  split; apply (links_ok_extend _ movie); assumption.
Qed.

(** X5: a successful creation, on a store whose constraints hold, appends
    exactly one movie row, with the submitted fields, the resolved country
    and the id one above the largest id in use; it appends association rows
    of that new id only, and the store's constraints still hold after it. *)
Theorem create_movie_adds_one (conc : Db -> Db) (today : Z) (p : MovieCreateSchema)
    (s s' : Db) (d : MovieDetailSchema) :
  wf_db (conc s) ->
  create_movie conc today p s = (Ok d, s') ->
  movies s' = movies (conc s) ++ [mkMovie (d_id d) (p_name p) (p_date p) (p_score p)
                                   (p_overview p) (p_status p) (p_budget p) (p_revenue p)
                                   (c_id (d_country d))] /\
  d_id d = next_id m_id (movies (conc s)) /\
  ~ In (d_id d) (map m_id (movies (conc s))) /\
  (exists gs, movies_genres s' = movies_genres (conc s) ++ link_rows (d_id d) gs) /\
  (exists as_, actors_movies s' = actors_movies (conc s) ++ link_rows (d_id d) as_) /\
  (exists ls, movies_languages s' = movies_languages (conc s) ++ link_rows (d_id d) ls) /\
  wf_db s'.
Proof.
  intros Hwf H. apply create_movie_ok in H.
  destruct (create_body_store p (conc s) s' d Hwf H) as [Hm [Hid [Hg [Ha [Hl Hw]]]]].
  split; [exact Hm|]. split; [exact Hid|].
  split; [rewrite Hid; apply next_id_not_in|].
  split; [exact Hg|]. split; [exact Ha|]. split; [exact Hl|exact Hw].
Qed.

(** ** The update handler on a validated payload

    Every field of [MovieUpdateSchema] is required, so the payload that
    validation hands to [update_movie] has all seven fields set; the
    properties below hold for every such payload, however pydantic
    obtained its values from the body. *)

Lemma model_dump_all (u : MovieUpdateSchema) :
  u_fields_set u = update_fields ->
  model_dump_exclude_unset u =
    [("name", FName (u_name u)); ("date", FDate (u_date u));
     ("score", FScore (u_score u)); ("overview", FOverview (u_overview u));
     ("status", FStatus (u_status u)); ("budget", FBudget (u_budget u));
     ("revenue", FRevenue (u_revenue u))]%string.
Proof. intros H. unfold model_dump_exclude_unset. rewrite H. reflexivity. Qed.

Lemma find_replace (m' : MovieModel) (ms : list MovieModel) (m : MovieModel) :
  find (fun x => m_id x =? m_id m') ms = Some m ->
  find (fun x => m_id x =? m_id m') (replace_movie m' ms) = Some m'.
Proof.
  induction ms as [|a ms IH]; simpl; [discriminate|].
  destruct (m_id a =? m_id m') eqn:Ha.
  - intros _. simpl. rewrite Z.eqb_refl. reflexivity.
  - intros H. simpl. rewrite Ha. apply IH. exact H.
Qed.

(** X6: an update with all fields set that succeeds writes every field of
    the payload into the movie: afterwards the movie of that id keeps its
    id and country, its name, date, score, status, budget and revenue are
    the payload's (none of them null) and its overview is the payload's
    overview, null or not. *)
Theorem update_movie_stores_values (today movie_id : Z) (u : MovieUpdateSchema)
    (s s' : Db) (msg : string) :
  u_fields_set u = update_fields ->
  update_movie today movie_id u s = (Ok msg, s') ->
  exists m m',
    find (fun x => m_id x =? movie_id) (movies s) = Some m /\
    find (fun x => m_id x =? movie_id) (movies s') = Some m' /\
    m_id m' = movie_id /\ m_country_id m' = m_country_id m /\
    u_name u = Some (m_name m') /\ u_date u = Some (m_date m') /\
    u_score u = Some (m_score m') /\ u_overview u = m_overview m' /\
    u_status u = Some (m_status m') /\ u_budget u = Some (m_budget m') /\
    u_revenue u = Some (m_revenue m').
Proof.
  intros Hfs. unfold update_movie.
  destruct (find _ (movies s)) as [movie|] eqn:Hf; [|discriminate].
  destruct (update_checks _ _); [discriminate|].
  rewrite (model_dump_all u Hfs).
  destruct u as [n d sc ov st b r fs]; simpl.
  pose proof (find_id_some _ _ _ Hf) as [_ Hid].
  destruct movie as [i n0 d0 sc0 ov0 st0 b0 r0 c0]; simpl in Hid; subst i.
  destruct n as [n|]; [|discriminate]. destruct d as [d|]; [|discriminate].
  destruct sc as [sc|]; [|discriminate]. destruct st as [st|]; [|discriminate].
  destruct b as [b|]; [|discriminate]. destruct r as [r|]; [|discriminate].
  simpl. unfold commit_movie.
  destruct (existsb _ (movies s)); [discriminate|].
  intros H. injection H as _ <-.
  exists (mkMovie movie_id n0 d0 sc0 ov0 st0 b0 r0 c0),
         (mkMovie movie_id n d sc ov st b r c0).
  split; [reflexivity|]. split.
  - simpl. apply (find_replace (mkMovie movie_id n d sc ov st b r c0) (movies s)
                   (mkMovie movie_id n0 d0 sc0 ov0 st0 b0 r0 c0)). exact Hf.
  - simpl. repeat split; reflexivity.
Qed.

Definition check_error (e : HttpError) : Prop :=
  e = invalid_input \/ e = TypeError \/ e = OverflowError.

Ltac split_checks :=
  repeat match goal with
         | |- context [match ?x with _ => _ end] => destruct x
         end;
  intros H; try discriminate; injection H as <-; unfold check_error; tauto.

Lemma update_checks_kinds (today : Z) data (e : HttpError) :
  update_checks today data = Some e -> check_error e.
Proof.
  unfold update_checks.
  destruct (check_score data) as [e1|] eqn:H1.
  { intros H. injection H as <-. revert H1. unfold check_score. split_checks. }
  destruct (check_nonneg "budget" data) as [e2|] eqn:H2.
  { intros H. injection H as <-. revert H2. unfold check_nonneg. split_checks. }
  destruct (check_nonneg "revenue" data) as [e3|] eqn:H3.
  { intros H. injection H as <-. revert H3. unfold check_nonneg. split_checks. }
  unfold check_date. split_checks.
Qed.

(** X7: an update that fails, for any validated payload, leaves the store
    as it was, and its error is 404 for an absent movie, 400 from the range
    checks, or an uncaught [TypeError], [OverflowError] or store error
    (HTTP 500); in particular the update handler never answers 409. *)
Theorem update_movie_errors (today movie_id : Z) (u : MovieUpdateSchema) (s s' : Db)
    (e : HttpError) :
  update_movie today movie_id u s = (Err e, s') ->
  s' = s /\ (e = not_found_movie \/ check_error e \/ (exists se, e = StoreException se)).
Proof.
  unfold update_movie. destruct (find _ (movies s)) as [movie|].
  - destruct (update_checks today _) as [e1|] eqn:Hc.
    + intros H. injection H as <- <-. split; [reflexivity|].
      right. left. exact (update_checks_kinds _ _ _ Hc).
    + destruct (commit_movie _ _ s) as [s2|e2] eqn:Hcm; [discriminate|].
      intros H. injection H as <- <-. split; [reflexivity|].
      right. right. revert Hcm. unfold commit_movie.
      destruct (fold_left _ _ _); [destruct (existsb _ _)|];
        intros Hx; try discriminate; injection Hx as <-; eexists; reflexivity.
  - intros H. injection H as <- <-. split; [reflexivity|]. left. reflexivity.
Qed.

Lemma update_checks_fail (today movie_id : Z) (u : MovieUpdateSchema) (s : Db) (e : HttpError) :
  In movie_id (map m_id (movies s)) ->
  update_checks today (model_dump_exclude_unset u) = Some e ->
  update_movie today movie_id u s = (Err e, s).
Proof.
  intros Hin Hc. unfold update_movie.
  destruct (find _ (movies s)) eqn:Hf; [|apply find_id_none in Hf; contradiction].
  rewrite Hc. reflexivity.
Qed.

Ltac full_checks Hfs :=
  rewrite (model_dump_all _ Hfs);
  unfold update_checks, check_score, check_nonneg, check_date, data_get; simpl.

(** X8: for a stored movie and a payload with all fields set, the
    handler's range checks answer 400 "Invalid input data." with the store
    unchanged, taken in the code's order: a score outside [0, 100]; else a
    negative budget; else a negative revenue; else a date after
    [today + 365]. *)
Theorem update_range_checks (today movie_id : Z) (u : MovieUpdateSchema) (s : Db) :
  u_fields_set u = update_fields -> In movie_id (map m_id (movies s)) ->
  (forall v, u_score u = Some v -> ~ (0 <= v <= 100)%Q ->
     update_movie today movie_id u s = (Err invalid_input, s)) /\
  (forall v w, u_score u = Some v -> (0 <= v <= 100)%Q -> u_budget u = Some w -> (w < 0)%Q ->
     update_movie today movie_id u s = (Err invalid_input, s)) /\
  (forall v w x, u_score u = Some v -> (0 <= v <= 100)%Q -> u_budget u = Some w -> (0 <= w)%Q ->
     u_revenue u = Some x -> (x < 0)%Q ->
     update_movie today movie_id u s = (Err invalid_input, s)) /\
  (forall v w x dt, u_score u = Some v -> (0 <= v <= 100)%Q -> u_budget u = Some w ->
     (0 <= w)%Q -> u_revenue u = Some x -> (0 <= x)%Q ->
     0 < today + 365 <= MAXORDINAL -> u_date u = Some dt -> today + 365 < dt ->
     update_movie today movie_id u s = (Err invalid_input, s)).
Proof.
  intros Hfs Hin.
  assert (Hok : forall v, (0 <= v <= 100)%Q -> Qle_bool 0 v && Qle_bool v 100 = true).
  { intros v [H1 H2]. apply andb_true_iff. rewrite !Qle_bool_iff. tauto. }
  assert (Hnn : forall w, (0 <= w)%Q -> Qle_bool 0 w = true).
  { intros w H. apply Qle_bool_iff. exact H. }
  assert (Hng : forall w, (w < 0)%Q -> Qle_bool 0 w = false).
  { intros w H. destruct (Qle_bool 0 w) eqn:E; [|reflexivity].
    apply Qle_bool_iff in E. exfalso. apply (Qlt_not_le w 0); assumption. }
  split; [|split; [|split]]; intros; apply update_checks_fail; try assumption;
    full_checks Hfs.
  - rewrite H. replace (Qle_bool 0 v && Qle_bool v 100) with false; [reflexivity|].
    symmetry. apply not_true_iff_false. intros E. apply H0.
    apply andb_true_iff in E as [E1 E2]. apply Qle_bool_iff in E1, E2. split; assumption.
  - rewrite H, (Hok v H0), H1, (Hng w H2). reflexivity.
  - rewrite H, (Hok v H0), H1, (Hnn w H2), H3, (Hng x H4). reflexivity.
  - rewrite H, (Hok v H0), H1, (Hnn w H2), H3, (Hnn x H4), date_add_days_365 by lia.
    rewrite H6. replace (today + 365 <? dt) with true by (symmetry; apply Z.ltb_lt; lia).
    reflexivity.
Qed.

(** X9: for a stored movie and a payload with all fields set, a [None]
    (JSON [null]) reaching one of the handler's comparisons is not caught:
    a null score; else a null budget; else a null revenue; else a null date
    (while [today + 365] is a valid date) makes the update fail with
    [TypeError] (HTTP 500), with the store unchanged. *)
Theorem update_null_type_error (today movie_id : Z) (u : MovieUpdateSchema) (s : Db) :
  u_fields_set u = update_fields -> In movie_id (map m_id (movies s)) ->
  (u_score u = None -> update_movie today movie_id u s = (Err TypeError, s)) /\
  (forall v, u_score u = Some v -> (0 <= v <= 100)%Q -> u_budget u = None ->
     update_movie today movie_id u s = (Err TypeError, s)) /\
  (forall v w, u_score u = Some v -> (0 <= v <= 100)%Q -> u_budget u = Some w -> (0 <= w)%Q ->
     u_revenue u = None -> update_movie today movie_id u s = (Err TypeError, s)) /\
  (forall v w x, u_score u = Some v -> (0 <= v <= 100)%Q -> u_budget u = Some w ->
     (0 <= w)%Q -> u_revenue u = Some x -> (0 <= x)%Q ->
     0 < today + 365 <= MAXORDINAL -> u_date u = None ->
     update_movie today movie_id u s = (Err TypeError, s)).
Proof.
  intros Hfs Hin.
  assert (Hok : forall v, (0 <= v <= 100)%Q -> Qle_bool 0 v && Qle_bool v 100 = true).
  { intros v [H1 H2]. apply andb_true_iff. rewrite !Qle_bool_iff. tauto. }
  assert (Hnn : forall w, (0 <= w)%Q -> Qle_bool 0 w = true).
  { intros w H. apply Qle_bool_iff. exact H. }
  split; [|split; [|split]]; intros; apply update_checks_fail; try assumption;
    full_checks Hfs.
  - rewrite H. reflexivity.
  - rewrite H, (Hok v H0), H1. reflexivity.
  - rewrite H, (Hok v H0), H1, (Hnn w H2), H3. reflexivity.
  - rewrite H, (Hok v H0), H1, (Hnn w H2), H3, (Hnn x H4), date_add_days_365 by lia.
    rewrite H6. reflexivity.
Qed.

Lemma drop_links_new (mid : Z) (ms : list MovieModel) (links : list (Z * Z))
    (rs : list NamedModel) :
  links_ok ms links -> ~ In mid (map m_id ms) ->
  drop_links mid (links ++ link_rows mid rs) = links.
Proof.
  intros Hok Hn. unfold drop_links. rewrite filter_app.
  replace (filter _ (link_rows mid rs)) with (@nil (Z * Z)).
  2: { unfold link_rows. induction rs as [|r rs IH]; simpl; [reflexivity|].
       rewrite Z.eqb_refl. exact IH. }
  rewrite app_nil_r. apply forallb_filter_id. apply forallb_forall.
  intros l Hl. apply negb_true_iff, Z.eqb_neq. intros He. apply Hn. rewrite <- He.
  apply Hok. exact Hl.
Qed.

(** X10: deleting a movie right after creating it gives back the movie
    table and the three association tables as they were before the
    creation (the store's constraints holding), keeps the country, genre,
    actor and language rows the creation added, and leaves the id
    answering 404. *)
Theorem create_then_delete (conc : Db -> Db) (today : Z) (p : MovieCreateSchema)
    (s s' : Db) (d : MovieDetailSchema) :
  wf_db (conc s) ->
  create_movie conc today p s = (Ok d, s') ->
  exists s'', delete_movie (d_id d) s' = (Ok tt, s'') /\
    movies s'' = movies (conc s) /\
    movies_genres s'' = movies_genres (conc s) /\
    actors_movies s'' = actors_movies (conc s) /\
    movies_languages s'' = movies_languages (conc s) /\
    countries s'' = countries s' /\ genres s'' = genres s' /\
    actors s'' = actors s' /\ languages s'' = languages s' /\
    get_movie_by_id (d_id d) s'' = Err not_found_movie.
Proof.
  intros Hwf H. apply create_movie_ok in H.
  pose proof Hwf as (_ & _ & _ & _ & _ & Lg & La & Ll).
  destruct (create_body_store p (conc s) s' d Hwf H)
    as [Hm [Hid [[gs Hg] [[as_ Ha] [[ls Hl] _]]]]].
  set (m := mkMovie (d_id d) (p_name p) (p_date p) (p_score p) (p_overview p) (p_status p)
                    (p_budget p) (p_revenue p) (c_id (d_country d))) in Hm.
  assert (Hn : ~ In (d_id d) (map m_id (movies (conc s)))) by (rewrite Hid; apply next_id_not_in).
  assert (Hf : find (fun x => m_id x =? d_id d) (movies s') = Some m).
  { rewrite Hm, find_app_skip; [simpl; rewrite Z.eqb_refl; reflexivity|].
    intros y Hy. apply Z.eqb_neq. intros He. apply Hn. rewrite <- He. apply in_map. exact Hy. }
  exists (delete_rows (d_id d) s'). split.
  - unfold delete_movie. rewrite Hf. reflexivity.
  - unfold delete_rows; simpl. split.
    + rewrite Hm, filter_app. simpl. rewrite Z.eqb_refl. simpl. rewrite app_nil_r.
      apply forallb_filter_id. apply forallb_forall. intros x Hx.
      apply negb_true_iff, Z.eqb_neq. intros He. apply Hn. rewrite <- He. apply in_map. exact Hx.
    + rewrite Hg, Ha, Hl, !(drop_links_new _ (movies (conc s))) by assumption.
      do 7 (split; [reflexivity|]).
      unfold get_movie_by_id, _get_movie_or_404; simpl.
      replace (find _ _) with (@None MovieModel); [reflexivity|].
      symmetry. apply find_id_none. intros Hin.
      apply in_map_iff in Hin as [x [Hx Hin]]. apply filter_In in Hin as [_ Hne].
      rewrite Hx, Z.eqb_refl in Hne. discriminate.
Qed.

(** ** Instances of the properties above *)

(** A validated update payload with all fields set. *)
Definition demo_update (score budget : option Q) : MovieUpdateSchema :=
  mkUpdate (Some "Heat 2"%string) (Some (ymd2ord 1995 12 15)) score None (Some Released)
    budget (Some 187%Q) update_fields.

Lemma delete_movie_spec_witness :
  delete_movie 7 demo_rel_store = (Err not_found_movie, demo_rel_store) /\
  delete_movie 1 demo_rel_store = (Ok tt, delete_rows 1 demo_rel_store) /\
  get_movie_by_id 1 (delete_rows 1 demo_rel_store) = Err not_found_movie /\
  wf_db (delete_rows 1 demo_rel_store).
Proof.
  destruct (delete_movie_spec 7 demo_rel_store) as [H7 _].
  destruct (delete_movie_spec 1 demo_rel_store) as [_ H1].
  split; [apply H7; vm_compute; intros [H|[]]; discriminate|].
  destruct H1 as (Hd & Hg & _ & _ & _ & _ & _ & _ & Hw); [vm_compute; left; reflexivity|].
  split; [exact Hd|]. split; [exact Hg|]. exact (Hw demo_rel_store_wf).
Defined.

Lemma get_movies_pages_cover_witness :
  (forall page, 1 <= page <= 3 ->
     exists r, get_movies page 10 (demo_store 25) (demo_store 25) = Ok r /\ l_movies r <> []) /\
  flat_map (fun k => match get_movies (Z.of_nat k) 10 (demo_store 25) (demo_store 25) with
                     | Ok r => l_movies r | Err _ => [] end) (seq 1 3)
  = map short_of (order_by_id_desc (movies (demo_store 25))).
Proof.
  pose proof (get_movies_pages_cover 10 (demo_store 25)) as H. cbv zeta in H.
  assert (Hn : Z.of_nat (List.length (movies (demo_store 25))) = 25) by (vm_compute; reflexivity).
  rewrite Hn in H. destruct H as [H1 H2]; [lia|lia|]. exact (conj H1 H2).
Defined.

Lemma create_movie_adds_one_witness :
  exists (d : MovieDetailSchema) (s' : Db),
    create_movie (fun s => s) demo_today demo_rel_payload demo_rel_store = (Ok d, s') /\
    d_id d = 2 /\ List.length (movies s') = 2%nat /\ wf_db s'.
Proof.
  pose proof demo_rel_result_ok as Hr. unfold demo_rel_result in Hr.
  destruct (create_movie_adds_one (fun s => s) demo_today demo_rel_payload demo_rel_store
              _ _ demo_rel_store_wf Hr) as (Hm & Hid & _ & _ & _ & _ & Hw).
  exists demo_rel_detail, (snd demo_rel_result).
  split; [exact Hr|]. split; [rewrite Hid; vm_compute; reflexivity|].
  split; [unfold demo_rel_result; rewrite Hm; reflexivity|exact Hw].
Defined.

Lemma update_movie_stores_values_witness :
  exists s', update_movie demo_today 1 (demo_update (Some 80%Q) (Some 60%Q)) demo_rel_store
             = (Ok updated_ack, s') /\
  exists m m',
    find (fun x => m_id x =? 1) (movies demo_rel_store) = Some m /\
    find (fun x => m_id x =? 1) (movies s') = Some m' /\
    m_id m' = 1 /\ m_country_id m' = m_country_id m /\
    Some "Heat 2"%string = Some (m_name m') /\ Some (ymd2ord 1995 12 15) = Some (m_date m') /\
    Some 80%Q = Some (m_score m') /\ None = m_overview m' /\
    Some Released = Some (m_status m') /\ Some 60%Q = Some (m_budget m') /\
    Some 187%Q = Some (m_revenue m').
Proof.
  pose (s' := snd (update_movie demo_today 1 (demo_update (Some 80%Q) (Some 60%Q)) demo_rel_store)).
  assert (Hr : update_movie demo_today 1 (demo_update (Some 80%Q) (Some 60%Q)) demo_rel_store
               = (Ok updated_ack, s')) by (vm_compute; reflexivity).
  exists s'. split; [exact Hr|].
  exact (update_movie_stores_values demo_today 1 (demo_update (Some 80%Q) (Some 60%Q)) demo_rel_store s' updated_ack
           eq_refl Hr).
Defined.

Lemma update_movie_errors_witness :
  exists s', update_movie demo_today 1 (demo_update (Some 150%Q) (Some 60%Q)) demo_rel_store
             = (Err invalid_input, s') /\
  s' = demo_rel_store /\
  (invalid_input = not_found_movie \/ check_error invalid_input \/
   (exists se, invalid_input = StoreException se)).
Proof.
  pose (s' := snd (update_movie demo_today 1 (demo_update (Some 150%Q) (Some 60%Q)) demo_rel_store)).
  assert (Hr : update_movie demo_today 1 (demo_update (Some 150%Q) (Some 60%Q)) demo_rel_store
               = (Err invalid_input, s')) by (vm_compute; reflexivity).
  exists s'. split; [exact Hr|].
  exact (update_movie_errors demo_today 1 (demo_update (Some 150%Q) (Some 60%Q)) demo_rel_store s' invalid_input Hr).
Defined.

Lemma update_range_checks_witness :
  update_movie demo_today 1 (demo_update (Some 150%Q) (Some 60%Q)) demo_rel_store
  = (Err invalid_input, demo_rel_store).
Proof.
  destruct (update_range_checks demo_today 1 (demo_update (Some 150%Q) (Some 60%Q))
              demo_rel_store eq_refl) as [H _].
  - vm_compute. left. reflexivity.
  - apply (H 150%Q).
    + reflexivity.
    + intros [_ Hle]. apply Qle_bool_iff in Hle. vm_compute in Hle. discriminate.
Defined.

Lemma update_null_type_error_witness :
  update_movie demo_today 1 (demo_update (Some 80%Q) None) demo_rel_store
  = (Err TypeError, demo_rel_store).
Proof.
  destruct (update_null_type_error demo_today 1 (demo_update (Some 80%Q) None)
              demo_rel_store eq_refl) as [_ [H _]].
  - vm_compute. left. reflexivity.
  - apply (H 80%Q).
    + reflexivity.
    + split; apply Qle_bool_iff; vm_compute; reflexivity.
    + reflexivity.
Defined.

Lemma create_then_delete_witness :
  exists (d : MovieDetailSchema) (s' s'' : Db),
    create_movie (fun s => s) demo_today demo_rel_payload demo_rel_store = (Ok d, s') /\
    delete_movie (d_id d) s' = (Ok tt, s'') /\
    movies s'' = movies demo_rel_store /\
    movies_genres s'' = movies_genres demo_rel_store /\
    genres s'' = genres s' /\
    get_movie_by_id (d_id d) s'' = Err not_found_movie.
Proof.
  pose proof demo_rel_result_ok as Hr. unfold demo_rel_result in Hr.
  destruct (create_then_delete (fun s => s) demo_today demo_rel_payload demo_rel_store
              _ _ demo_rel_store_wf Hr) as (s'' & Hd & Hm & Hg & _ & _ & _ & Hgn & _ & _ & Hget).
  exists demo_rel_detail, (snd demo_rel_result), s''.
  split; [exact Hr|]. split; [exact Hd|]. split; [exact Hm|]. split; [exact Hg|].
  split; [exact Hgn|exact Hget].
Defined.
